(** * Signal fusion and portfolio statistics of signalcartel-alien

    A shallow embedding of the numerical core of the three scripts

    - [advanced_tensor_mathematical_proof.py]  (module [Advanced]),
    - [mathematical_proof_simple.py]           (module [Simple]),
    - [mathematical_proof_validation.py]       (module [Validation]),

    followed by the properties their specification states about them.

    Numbers.  The scripts compute with Python floats.  The embedding reads
    every float as the real number it stands for and every operation as the
    exact operation on [R]; rounding, overflow, signed zeros and NaN payloads
    are outside that reading.  Python [int]s that the code keeps as integers
    (a direction, a length) are [Z] and [nat].  Two pieces of code need
    nothing but [+ - * /] and [>]: [calculate_portfolio_performance] and the
    weight normalization of [mathematical_tensor_fusion].  The first is
    written once over an interface of these operations ([Py.Number]), the
    second is written a second time over it (module [AdvancedNumber]); both
    are read over [R] and over the kernel's binary64 numbers, so that the
    effect of rounding and of overflow on them can be computed.  Every
    statement about reals below is a statement in exact arithmetic.

    Errors.  A Python exception is a value of [Py.exn]; a function that can
    raise returns a [Py.result]. *)

From Stdlib Require Import String.
From Stdlib Require Floats Uint63.
From Stdlib Require Import Reals Lra Lia ZArith Bool List Permutation.
Import ListNotations.
Open Scope R_scope.

(* ================================================================== *)
(** ** The fragment of Python the scripts use *)

Module Py.

(** The exception classes that the modelled code can raise. *)
Inductive exn : Type :=
| ValueError (msg : string)
| ZeroDivisionError
| IndexError.

Inductive result (A : Type) : Type :=
| Ok (a : A)
| Raise (e : exn).

Arguments Ok {A} a.
Arguments Raise {A} e.

Definition ret {A : Type} (a : A) : result A := Ok a.

Definition bind {A B : Type} (m : result A) (k : A -> result B) : result B :=
  match m with
  | Ok a => k a
  | Raise e => Raise e
  end.

(** A comprehension whose body can raise: elements are evaluated from left
    to right and the first exception ends the evaluation. *)
Fixpoint mapM {A B : Type} (f : A -> result B) (l : list A) : result (list B) :=
  match l with
  | [] => Ok []
  | a :: l' =>
      match f a with
      | Raise e => Raise e
      | Ok b =>
          match mapM f l' with
          | Raise e => Raise e
          | Ok bs => Ok (b :: bs)
          end
      end
  end.

(** [sum(xs)]: the accumulator starts at [0] and the elements are added
    from left to right. *)
Definition sum (xs : list R) : R := fold_left Rplus xs 0.

(** [sum] of a list of [int]s. *)
Definition sum_int (xs : list Z) : Z := fold_left Z.add xs 0%Z.

(** [x / y], true division. *)
Definition truediv (x y : R) : result R :=
  if Req_dec_T y 0 then Raise ZeroDivisionError else Ok (x / y).

(** [math.sqrt(x)]. *)
Definition math_sqrt (x : R) : result R :=
  if Rlt_dec x 0 then Raise (ValueError "math domain error"%string) else Ok (sqrt x).

(** [math.log2(x)]. *)
Definition math_log2 (x : R) : result R :=
  if Rle_dec x 0 then Raise (ValueError "math domain error"%string)
  else Ok (ln x / ln 2).

(** [len(xs)] where the code uses it as a number. *)
Definition len {A : Type} (xs : list A) : R := INR (length xs).

(** The arithmetic of a Python [float] as far as
    [calculate_portfolio_performance] and the weight normalization of
    [mathematical_tensor_fusion] use it. *)
Class Number (F : Type) : Type := {
  of_int : Z -> F;          (* an [int] operand, converted *)
  add : F -> F -> F;
  sub : F -> F -> F;
  mul : F -> F -> F;
  quot : F -> F -> F;       (* [/] with a divisor that is not zero *)
  is_zero : F -> bool;      (* [x == 0] *)
  gt : F -> F -> bool       (* [x > y] *)
}.

(** The decimal literal [n/d], for instance [0.25] as [lit 25 100].  Python
    reads a literal as the float nearest to its value; the division of the
    two integers, both exact, rounds to that same float. *)
Definition lit {F : Type} `{Number F} (n d : Z) : F :=
  quot (of_int n) (of_int d).

(** [sum] and [/] over the interface.  The sum adds from left to right.
    (CPython 3.12 and later carry a compensation term through a sum of
    floats; on lists of at most two floats, and on lists of zeros, which
    are the ones evaluated in binary64 below, the result is the same, also
    when the sum overflows to infinity, where the compensation is left
    out.) *)
Definition nsum {F : Type} `{Number F} (xs : list F) : F :=
  fold_left add xs (of_int 0).

Definition ndiv {F : Type} `{Number F} (x y : F) : result F :=
  if is_zero y then Raise ZeroDivisionError else Ok (quot x y).

(** Exact arithmetic. *)
#[global] Instance Number_R : Number R := {
  of_int := IZR;
  add := Rplus;
  sub := Rminus;
  mul := Rmult;
  quot := Rdiv;
  is_zero := fun x => if Req_dec_T x 0 then true else false;
  gt := fun x y => if Rgt_dec x y then true else false
}.

(** Binary64 arithmetic, rounding to nearest, ties to even.  An [int]
    operand is converted exactly as long as it has at most 53 significant
    bits, as every integer of the scripts has. *)
Definition float_of_int (z : Z) : PrimFloat.float :=
  match z with
  | Zneg p => PrimFloat.opp (PrimFloat.of_uint63 (Uint63.of_Z (Zpos p)))
  | _ => PrimFloat.of_uint63 (Uint63.of_Z z)
  end.

#[global] Instance Number_binary64 : Number PrimFloat.float := {
  of_int := float_of_int;
  add := PrimFloat.add;
  sub := PrimFloat.sub;
  mul := PrimFloat.mul;
  quot := PrimFloat.div;
  is_zero := fun x => PrimFloat.eqb x PrimFloat.zero;
  gt := fun x y => PrimFloat.ltb y x
}.

End Py.

Notation "x <- m ;; k" := (Py.bind m (fun x => k))
  (at level 61, m at next level, right associativity).

(* ================================================================== *)
(** ** advanced_tensor_mathematical_proof.py *)

Module Advanced.
Import Py.

(** [REAL_TRADING_DATA['commission_per_trade']]. *)
Definition commission_per_trade : R := 25 / 100.

(** The dictionary that [AIStrategy.generate_signal] returns, restricted to
    the keys that the fusion reads. *)
Record Signal : Type := mkSignal {
  confidence : R;
  direction : Z;
  magnitude : R
}.

(** The dictionary that [mathematical_tensor_fusion] returns. *)
Record Fused : Type := mkFused {
  fused_confidence : R;
  fused_direction : Z;
  fused_magnitude : R;
  coherence : R;
  information_content : R;
  contributing_signals : nat
}.

(** Lines 183-184: [total_weight = sum(weights)] and the conditional
    expression that builds [normalized_weights]. *)
Definition normalize_weights (weights : list R) : result (list R) :=
  let total_weight := sum weights in
  if Rgt_dec total_weight 0
  then mapM (fun w => truediv w total_weight) weights
  else u <- truediv 1 (len weights) ;; ret (repeat u (length weights)).

(** Lines 195-197. *)
Definition signal_coherence (signals : list Signal) : result R :=
  let directions := map direction signals in
  sq <- mapM (fun d =>
                m <- truediv (IZR (sum_int directions)) (len directions) ;;
                ret ((IZR d - m) ^ 2)) directions ;;
  direction_variance <- truediv (sum sq) (len directions) ;;
  r <- math_sqrt direction_variance ;;
  ret (Rmax 0 (1 - r)).

(** Lines 200-201. *)
Definition shannon_information (signals : list Signal) : result R :=
  let confidences := map confidence signals in
  terms <- mapM (fun c =>
                   l <- math_log2 (Rmax (1 / 1000) c) ;;
                   ret (c * l))
                (filter (fun c => if Rgt_dec c 0 then true else false)
                        confidences) ;;
  ret (- sum terms).

Definition mathematical_tensor_fusion
  (signals : list Signal) (weights : list R) : result Fused :=
  if negb (Nat.eqb (length signals) (length weights))
  then Raise (ValueError "Signals and weights must have same length"%string)
  else
    normalized_weights <- normalize_weights weights ;;
    let pairs := combine signals normalized_weights in
    let fused_confidence :=
      sum (map (fun '(s, w) => confidence s * w) pairs) in
    let fused_direction :=
      sum (map (fun '(s, w) => IZR (direction s) * confidence s * w) pairs) in
    let fused_magnitude :=
      sum (map (fun '(s, w) => magnitude s * confidence s * w) pairs) in
    let fused_direction :=
      if Rgt_dec fused_direction 0 then 1%Z else (-1)%Z in
    coherence <- signal_coherence signals ;;
    information_content <- shannon_information signals ;;
    ret {| fused_confidence := fused_confidence;
           fused_direction := fused_direction;
           fused_magnitude := fused_magnitude;
           coherence := coherence;
           information_content := information_content;
           contributing_signals := length signals |}.

(** The running totals of one combination in [prove_additive_value]. *)
Record Tally : Type := mkTally {
  total_profit : R;
  correct_predictions : nat
}.

(** Lines 369-373: the profit of one trade of a combination.
    [actual_direction] and [actual_magnitude] are the two random draws of
    lines 366-367; the second one is not read. *)
Definition trade_profit (fused : Fused)
  (actual_direction : Z) (actual_magnitude : R) : R :=
  if Z.eqb (fused_direction fused) actual_direction
  then fused_magnitude fused * 60 - commission_per_trade
  else - fused_magnitude fused * 60 - commission_per_trade.

(** Lines 364-375: one market state of a combination, after the fusion. *)
Definition combination_step (fused : Fused)
  (actual_direction : Z) (actual_magnitude : R) (acc : Tally) : Tally :=
  if (if Rgt_dec (fused_confidence fused) (6 / 10) then true else false)
     && (if Rgt_dec (information_content fused) 2 then true else false)
  then
    {| total_profit :=
         total_profit acc + trade_profit fused actual_direction actual_magnitude;
       correct_predictions :=
         if Z.eqb (fused_direction fused) actual_direction
         then (correct_predictions acc + 1)%nat
         else correct_predictions acc |}
  else acc.

End Advanced.

(* ================================================================== *)
(** ** advanced_tensor_mathematical_proof.py: the normalization over floats *)

Module AdvancedNumber.
Import Py.

Section Normalization.
Context {F : Type} `{Number F}.

(** Lines 183-184 over the interface of the float operations:
    [total_weight = sum(weights)], then [w / total_weight] for every weight
    when [total_weight > 0] and [1/len(weights)], as many times as there
    are weights, otherwise. *)
Definition normalize_weights (weights : list F) : result (list F) :=
  let total_weight := nsum weights in
  if gt total_weight (of_int 0)
  then mapM (fun w => ndiv w total_weight) weights
  else u <- ndiv (of_int 1) (of_int (Z.of_nat (length weights))) ;;
       ret (repeat u (length weights)).

End Normalization.

End AdvancedNumber.

(* ================================================================== *)
(** ** mathematical_proof_simple.py *)

Module Simple.
Import Py.

Section Portfolio.
Context {F : Type} `{Number F}.

(** [REAL_DATA['commission_per_trade']]. *)
Definition commission_per_trade : F := lit 25 100.

(** One entry of [ai_systems]. *)
Record AiSystem : Type := mkAiSystem {
  name : string;
  accuracy : F;
  avg_magnitude : F;
  reliability : F
}.

(** The dictionary that [calculate_portfolio_performance] returns; its keys
    ['accuracy'], ['magnitude'] and ['reliability'] carry the names of the
    local variables they are filled from. *)
Record Performance : Type := mkPerformance {
  expected_pnl : F;
  risk_adjusted : F;
  portfolio_accuracy : F;
  portfolio_magnitude : F;
  portfolio_reliability : F
}.

Definition calculate_portfolio_performance
  (ai_systems : list AiSystem) (weights : list F) : result Performance :=
  let total_weight := nsum weights in
  weights <- mapM (fun w => ndiv w total_weight) weights ;;
  let pairs := combine weights ai_systems in
  let portfolio_accuracy :=
    nsum (map (fun '(w, s) => mul w (accuracy s)) pairs) in
  let portfolio_magnitude :=
    nsum (map (fun '(w, s) => mul w (avg_magnitude s)) pairs) in
  let portfolio_reliability :=
    nsum (map (fun '(w, s) => mul w (reliability s)) pairs) in
  let avg_win := mul portfolio_magnitude (of_int 60) in
  let avg_loss := mul portfolio_magnitude (of_int 60) in
  let expected_pnl :=
    sub (sub (mul portfolio_accuracy avg_win)
             (mul (sub (of_int 1) portfolio_accuracy) avg_loss))
        commission_per_trade in
  let volatility := mul (mul portfolio_magnitude (of_int 60)) (lit 5 10) in
  risk_adjusted <-
    (if gt volatility (of_int 0) then ndiv expected_pnl volatility
     else ret (of_int 0)) ;;
  ret {| expected_pnl := expected_pnl;
         risk_adjusted := risk_adjusted;
         portfolio_accuracy := portfolio_accuracy;
         portfolio_magnitude := portfolio_magnitude;
         portfolio_reliability := portfolio_reliability |}.

End Portfolio.

Arguments AiSystem F : clear implicits.
Arguments Performance F : clear implicits.

(** The five systems of [mathematical_proof], over any arithmetic. *)
Definition ai_systems {F : Type} `{Number F} : list (AiSystem F) :=
  [ mkAiSystem "Pine Script"%string (lit 65 100) (lit 12 1000) (lit 75 100);
    mkAiSystem "Markov Chain"%string (lit 70 100) (lit 15 1000) (lit 80 100);
    mkAiSystem "Math Intuition"%string (lit 80 100) (lit 8 1000) (lit 70 100);
    mkAiSystem "Bayesian"%string (lit 75 100) (lit 18 1000) (lit 85 100);
    mkAiSystem "Sentiment"%string (lit 60 100) (lit 25 1000) (lit 60 100) ].

End Simple.

(* ================================================================== *)
(** ** The fragment of numpy that mathematical_proof_validation.py uses *)

Module Np.
Import Py.

(** An element of a float array.  numpy's arithmetic does not raise on a
    division by zero or on an undefined operation: it stores an infinity or
    a NaN (and prints a warning).  Finite values are read as reals. *)
Inductive npfloat : Type :=
| Fin (r : R)
| PInf
| NInf
| NaN.

Definition neg (a : npfloat) : npfloat :=
  match a with
  | Fin r => Fin (- r)
  | PInf => NInf
  | NInf => PInf
  | NaN => NaN
  end.

Definition add (a b : npfloat) : npfloat :=
  match a, b with
  | NaN, _ | _, NaN => NaN
  | Fin x, Fin y => Fin (x + y)
  | PInf, NInf | NInf, PInf => NaN
  | PInf, _ | _, PInf => PInf
  | NInf, _ | _, NInf => NInf
  end.

Definition sub (a b : npfloat) : npfloat := add a (neg b).

(** An infinity with the sign of [r], NaN when [r] is zero. *)
Definition signed_inf (r : R) : npfloat :=
  if Rgt_dec r 0 then PInf else if Rlt_dec r 0 then NInf else NaN.

Definition mul (a b : npfloat) : npfloat :=
  match a, b with
  | NaN, _ | _, NaN => NaN
  | Fin x, Fin y => Fin (x * y)
  | PInf, Fin y | Fin y, PInf => signed_inf y
  | NInf, Fin y | Fin y, NInf => signed_inf (- y)
  | PInf, PInf | NInf, NInf => PInf
  | PInf, NInf | NInf, PInf => NaN
  end.

Definition div (a b : npfloat) : npfloat :=
  match a, b with
  | NaN, _ | _, NaN => NaN
  | Fin x, Fin y => if Req_dec_T y 0 then signed_inf x else Fin (x / y)
  | Fin _, PInf | Fin _, NInf => Fin 0
  | PInf, Fin y => if Rlt_dec y 0 then NInf else PInf
  | NInf, Fin y => if Rlt_dec y 0 then PInf else NInf
  | _, _ => NaN
  end.

(** [x ** 2]. *)
Definition square (a : npfloat) : npfloat := mul a a.

(** [np.sqrt]. *)
Definition sqrt (a : npfloat) : npfloat :=
  match a with
  | Fin r => if Rlt_dec r 0 then NaN else Fin (R_sqrt.sqrt r)
  | PInf => PInf
  | _ => NaN
  end.

(** [np.sign]. *)
Definition sign (a : npfloat) : npfloat :=
  match a with
  | Fin r => if Rgt_dec r 0 then Fin 1 else if Rlt_dec r 0 then Fin (-1) else Fin 0
  | PInf => Fin 1
  | NInf => Fin (-1)
  | NaN => NaN
  end.

(** [a == b]: a NaN is equal to nothing. *)
Definition eqb (a b : npfloat) : bool :=
  match a, b with
  | Fin x, Fin y => if Req_dec_T x y then true else false
  | PInf, PInf | NInf, NInf => true
  | _, _ => false
  end.

(** [a > b]: false when either side is a NaN. *)
Definition gtb (a b : npfloat) : bool :=
  match a, b with
  | NaN, _ | _, NaN => false
  | Fin x, Fin y => if Rgt_dec x y then true else false
  | PInf, PInf | NInf, _ | Fin _, PInf => false
  | PInf, _ | Fin _, NInf => true
  end.

(** [np.sum] of a one-dimensional array. *)
Definition sum (xs : list npfloat) : npfloat := fold_left add xs (Fin 0).

(** [np.mean]: the sum divided by the number of elements, NaN on an empty
    array. *)
Definition mean (xs : list npfloat) : npfloat :=
  div (sum xs) (Fin (INR (length xs))).

(** [np.std]: the square root of the mean squared deviation from the mean
    (no degrees-of-freedom correction). *)
Definition std (xs : list npfloat) : npfloat :=
  let m := mean xs in
  sqrt (mean (map (fun x => square (sub x m)) xs)).

(** Broadcasting of two one-dimensional operands: equal lengths pair up, an
    operand of length one is repeated, any other pair of shapes is refused. *)
Definition broadcast {A B : Type} (xs : list A) (ys : list B)
  : result (list (A * B)) :=
  if Nat.eqb (length xs) (length ys) then Ok (combine xs ys)
  else
    match xs, ys with
    | [x], _ => Ok (map (fun y => (x, y)) ys)
    | _, [y] => Ok (map (fun x => (x, y)) xs)
    | _, _ =>
        Raise (ValueError "operands could not be broadcast together"%string)
    end.

(** [xs[t]] on the first axis. *)
Definition item {A : Type} (xs : list A) (t : nat) : result A :=
  match nth_error xs t with
  | Some x => Ok x
  | None => Raise IndexError
  end.

End Np.

(* ================================================================== *)
(** ** mathematical_proof_validation.py *)

Module Validation.
Import Py.

(** A row [[confidence, direction, magnitude, reliability]] of the last
    axis of [signals] and of [fused_signals]. *)
Record Features (A : Type) : Type := mkFeatures {
  confidence : A;
  direction : A;
  magnitude : A;
  reliability : A
}.

Arguments mkFeatures {A}.
Arguments confidence {A}.
Arguments direction {A}.
Arguments magnitude {A}.
Arguments reliability {A}.

(** A row [[direction, magnitude]] of [actual_outcomes]. *)
Record Outcome : Type := mkOutcome {
  actual_direction : R;
  actual_magnitude : R
}.

(** Line 78: [weights / np.sum(weights)]. *)
Definition normalize_weights (weights : list R) : list Np.npfloat :=
  let total := Np.sum (map Np.Fin weights) in
  map (fun w => Np.div (Np.Fin w) total) weights.

(** [np.sum(weights * signals[t, :, f])] for the feature that [col] reads. *)
Definition fuse_feature (weights : list Np.npfloat)
  (systems : list (Features R)) (col : Features R -> R)
  : result Np.npfloat :=
  pairs <- Np.broadcast weights (map col systems) ;;
  ret (Np.sum (map (fun '(w, x) => Np.mul w (Np.Fin x)) pairs)).

(** [signals] is the array of shape [(n_trades, n_systems, 4)]: one list of
    per-system rows for each trade. *)
Definition tensor_fusion (signals : list (list (Features R)))
  (weights : list R) : result (list (Features Np.npfloat)) :=
  let weights := normalize_weights weights in
  mapM (fun systems =>
          c <- fuse_feature weights systems confidence ;;
          d <- fuse_feature weights systems direction ;;
          m <- fuse_feature weights systems magnitude ;;
          r <- fuse_feature weights systems reliability ;;
          ret (mkFeatures c d m r))
       signals.

(** Lines 104-116, the body of the loop over the trades. *)
Definition trade_pnl (prediction : Features Np.npfloat) (actual : Outcome) : R :=
  let predicted_dir := Np.sign (direction prediction) in
  let actual_dir := actual_direction actual in
  let actual_mag := actual_magnitude actual in
  let pnl :=
    if Np.eqb predicted_dir (Np.Fin actual_dir)
    then actual_mag * 60
    else - actual_mag * 60 in
  pnl - 25 / 100.

(** Lines 102-117. *)
Definition simulated_pnl (predictions : list (Features Np.npfloat))
  (actual_outcomes : list Outcome) : result (list R) :=
  mapM (fun t =>
          p <- Np.item predictions t ;;
          a <- Np.item actual_outcomes t ;;
          ret (trade_pnl p a))
       (seq 0 (length predictions)).

(** Lines 119-121. *)
Definition sharpe (pnl_per_trade : list R) : Np.npfloat :=
  let mean_pnl := Np.mean (map Np.Fin pnl_per_trade) in
  let std_pnl := Np.std (map Np.Fin pnl_per_trade) in
  if Np.gtb std_pnl (Np.Fin 0) then Np.div mean_pnl std_pnl else Np.Fin 0.

(** The dictionary that [compute_performance_metrics] returns. *)
Record Metrics : Type := mkMetrics {
  direction_accuracy : Np.npfloat;
  magnitude_rmse : Np.npfloat;
  mean_pnl : Np.npfloat;
  std_pnl : Np.npfloat;
  sharpe_ratio : Np.npfloat;
  total_pnl : Np.npfloat
}.

Definition compute_performance_metrics
  (predictions : list (Features Np.npfloat)) (actual_outcomes : list Outcome)
  : result Metrics :=
  let n_trades := length predictions in
  hits <- Np.broadcast (map (fun p => Np.sign (direction p)) predictions)
                       (map actual_direction actual_outcomes) ;;
  let direction_accuracy :=
    Np.mean (map (fun '(p, a) => if Np.eqb p (Np.Fin a) then Np.Fin 1 else Np.Fin 0)
                 hits) in
  errs <- Np.broadcast (map magnitude predictions)
                       (map actual_magnitude actual_outcomes) ;;
  let magnitude_rmse :=
    Np.sqrt (Np.mean (map (fun '(p, a) => Np.square (Np.sub p (Np.Fin a))) errs)) in
  pnl_per_trade <- simulated_pnl predictions actual_outcomes ;;
  let mean_pnl := Np.mean (map Np.Fin pnl_per_trade) in
  let std_pnl := Np.std (map Np.Fin pnl_per_trade) in
  let sharpe := sharpe pnl_per_trade in
  ret {| direction_accuracy := direction_accuracy;
         magnitude_rmse := magnitude_rmse;
         mean_pnl := mean_pnl;
         std_pnl := std_pnl;
         sharpe_ratio := sharpe;
         total_pnl := Np.mul mean_pnl (Np.Fin (INR n_trades)) |}.

End Validation.

(* ================================================================== *)
(** ** advanced_tensor_mathematical_proof.py: the strategies and the
       simulation around the fusion *)

Module Strategy.
Import Py.

(** The attributes of an [AIStrategy]. *)
Record AIStrategy : Type := mkAIStrategy {
  name : string;
  specialty : string;
  math_domain : string;
  accuracy : R;
  magnitude_range : R * R;
  reliability : R;
  computational_complexity : Z
}.

(** A [market_state] dictionary: its items, first match first. *)
Definition MarketState : Type := list (string * R).

(** [market_state.get(key, default)]. *)
Fixpoint get (market_state : MarketState) (key : string) (default : R) : R :=
  match market_state with
  | [] => default
  | (k, v) :: rest => if String.eqb k key then v else get rest key default
  end.

(** The random numbers that one call of [generate_signal] consumes: the
    value of [random.gauss(0, 0.1)], the value of [random.random()] in the
    last branch of [_compute_direction], and the value of [random.random()]
    from which [random.uniform(a, b)] computes [a + (b - a) * random()]. *)
Record Draws : Type := mkDraws {
  gauss : R;
  coin : R;
  fraction : R
}.

(** Lines 59-84; [u] is the value of [random.random()] in the last branch. *)
Definition _compute_direction (self : AIStrategy) (market_state : MarketState)
  (u : R) : Z :=
  if String.eqb (specialty self) "deep_learning" then
    let pattern_strength := get market_state "pattern_strength" 0 in
    if Rgt_dec pattern_strength (5 / 10) then 1%Z else (-1)%Z
  else if String.eqb (specialty self) "microstructure" then
    let bid_ask_pressure := get market_state "bid_ask_pressure" 0 in
    if Rgt_dec bid_ask_pressure (6 / 10) then 1%Z else (-1)%Z
  else if String.eqb (specialty self) "state_prediction" then
    let transition_probability := get market_state "transition_prob" (5 / 10) in
    if Rgt_dec transition_probability (65 / 100) then 1%Z else (-1)%Z
  else if String.eqb (specialty self) "profit_optimization" then
    let risk_reward := get market_state "risk_reward" 1 in
    if Rgt_dec risk_reward (15 / 10) then 1%Z else (-1)%Z
  else if String.eqb (specialty self) "multi_dimensional" then
    let factors := [get market_state "momentum" 0;
                    get market_state "volatility" (5 / 10)] in
    if Rgt_dec (sum factors / len factors) (55 / 100) then 1%Z else (-1)%Z
  else
    if Rgt_dec u (5 / 10) then 1%Z else (-1)%Z.

(** Lines 86-95. *)
Definition _get_specialty_factor (self : AIStrategy)
  (market_state : MarketState) : R :=
  if String.eqb (specialty self) "deep_learning"
     && (if Rgt_dec (get market_state "pattern_strength" 0) (7 / 10)
         then true else false)
  then 15 / 10
  else if String.eqb (specialty self) "microstructure"
          && (if Rgt_dec (get market_state "volume" 1000000) 5000000
              then true else false)
  then 13 / 10
  else if String.eqb (specialty self) "state_prediction"
          && (if Rlt_dec (get market_state "volatility" (5 / 10)) (3 / 10)
              then true else false)
  then 12 / 10
  else 1.

(** The dictionary that [generate_signal] returns: the three keys that the
    fusion reads, as an [Advanced.Signal], and the two others. *)
Record GeneratedSignal : Type := mkGeneratedSignal {
  signal : Advanced.Signal;
  specialty_factor : R;
  mathematical_basis : string
}.

(** Lines 36-57. *)
Definition generate_signal (self : AIStrategy) (market_state : MarketState)
  (draws : Draws) : GeneratedSignal :=
  let base_confidence := accuracy self + gauss draws in
  let base_confidence := Rmax 0 (Rmin 1 base_confidence) in
  let direction := _compute_direction self market_state (coin draws) in
  let magnitude :=
    fst (magnitude_range self)
    + (snd (magnitude_range self) - fst (magnitude_range self)) * fraction draws in
  let final_confidence := base_confidence * reliability self in
  {| signal := {| Advanced.confidence := final_confidence;
                  Advanced.direction := direction;
                  Advanced.magnitude := magnitude |};
     specialty_factor := _get_specialty_factor self market_state;
     mathematical_basis := math_domain self |}.

(** Lines 97-174. *)
Definition create_ai_strategies : list AIStrategy :=
  [ mkAIStrategy "GPU Neural Strategy" "deep_learning"
      "Neural Network Optimization" (78 / 100) (8 / 1000, 35 / 1000) (85 / 100) 9;
    mkAIStrategy "Quantum Supremacy Engine" "multi_dimensional"
      "Multi-Dimensional Optimization" (82 / 100) (12 / 1000, 40 / 1000) (88 / 100) 10;
    mkAIStrategy "Order Book AI" "microstructure"
      "Market Microstructure Theory" (75 / 100) (6 / 1000, 25 / 1000) (82 / 100) 8;
    mkAIStrategy "Enhanced Markov Predictor" "state_prediction"
      "Markov Chain Theory" (73 / 100) (10 / 1000, 30 / 1000) (80 / 100) 7;
    mkAIStrategy "Profit Optimizer" "profit_optimization"
      "Convex Optimization" (70 / 100) (15 / 1000, 50 / 1000) (75 / 100) 6;
    mkAIStrategy "Pine Script RSI" "technical_analysis"
      "Technical Indicators" (65 / 100) (5 / 1000, 20 / 1000) (70 / 100) 3;
    mkAIStrategy "Mathematical Intuition" "mathematical"
      "8-Domain Analysis" (68 / 100) (8 / 1000, 25 / 1000) (72 / 100) 5 ].

(** One market state of the simulation with everything random about it:
    the draws of each strategy's signal, by the position of the strategy,
    for the trading pass and for the later count of [trades_made], and the
    simulated outcome. *)
Record Round : Type := mkRound {
  state : MarketState;
  draws : nat -> Draws;
  recount_draws : nat -> Draws;
  actual_direction : Z;
  actual_magnitude : R
}.

(** [[s.generate_signal(state) for s in strategies]]. *)
Definition generate_signals (strategies : list AIStrategy)
  (market_state : MarketState) (d : nat -> Draws) : list Advanced.Signal :=
  map (fun '(i, s) => signal (generate_signal s market_state (d i)))
      (combine (seq 0 (length strategies)) strategies).

(** Lines 304-310: the profit of one trade of a single strategy. *)
Definition individual_profit (s : Advanced.Signal)
  (actual_direction : Z) (actual_magnitude : R) : R :=
  if Z.eqb (Advanced.direction s) actual_direction
  then Advanced.magnitude s * 60 - Advanced.commission_per_trade
  else - Advanced.magnitude s * 60 - Advanced.commission_per_trade.

(** Lines 296-310: one market state of a single strategy, which reads the
    draws of position [0]. *)
Definition individual_step (strategy : AIStrategy) (r : Round)
  (acc : Advanced.Tally) : Advanced.Tally :=
  let s := signal (generate_signal strategy (state r) (draws r 0%nat)) in
  {| Advanced.total_profit :=
       Advanced.total_profit acc
       + individual_profit s (actual_direction r) (actual_magnitude r);
     Advanced.correct_predictions :=
       if Z.eqb (Advanced.direction s) (actual_direction r)
       then (Advanced.correct_predictions acc + 1)%nat
       else Advanced.correct_predictions acc |}.

(** An entry of [individual_performance]. *)
Record IndividualPerformance : Type := mkIndividualPerformance {
  avg_profit : R;
  individual_accuracy : R;
  individual_total_profit : R;
  sharpe_like_ratio : R
}.

(** Lines 319: the ratio stored under ['sharpe_like_ratio']. *)
Definition sharpe_like (avg_profit : R) : result R :=
  if Req_dec_T avg_profit 0 then ret 0
  else truediv avg_profit (Rmax (1 / 10) (Rabs avg_profit)).

(** Lines 292-320 for one strategy; [rounds] are the market states, as
    many as [num_simulations] says (a count that is not negative). *)
Definition individual_performance (strategy : AIStrategy) (rounds : list Round)
  : result IndividualPerformance :=
  let num_simulations := len rounds in
  let tally := fold_left (fun acc r => individual_step strategy r acc) rounds
                         (Advanced.mkTally 0 0) in
  avg_profit <- truediv (Advanced.total_profit tally) num_simulations ;;
  accuracy <- truediv (INR (Advanced.correct_predictions tally)) num_simulations ;;
  ratio <- sharpe_like avg_profit ;;
  ret {| avg_profit := avg_profit;
         individual_accuracy := accuracy;
         individual_total_profit := Advanced.total_profit tally;
         sharpe_like_ratio := ratio |}.

(** Lines 329-337. *)
Definition priority_weights : list (string * R) :=
  [ ("GPU Neural Strategy"%string, 3);
    ("Quantum Supremacy Engine"%string, 28 / 10);
    ("Order Book AI"%string, 25 / 10);
    ("Enhanced Markov Predictor"%string, 22 / 10);
    ("Profit Optimizer"%string, 2);
    ("Mathematical Intuition"%string, 15 / 10);
    ("Pine Script RSI"%string, 8 / 10) ].

(** Line 351. *)
Definition combo_weights (combo_strategies : list AIStrategy) : list R :=
  map (fun s => get priority_weights (name s) 1) combo_strategies.

(** Lines 356-375: one market state of a combination. *)
Definition combination_round (combo_strategies : list AIStrategy) (r : Round)
  (acc : Advanced.Tally) : result Advanced.Tally :=
  let signals := generate_signals combo_strategies (state r) (draws r) in
  fused <- Advanced.mathematical_tensor_fusion
             signals (combo_weights combo_strategies) ;;
  ret (Advanced.combination_step fused (actual_direction r) (actual_magnitude r) acc).

(** The loop of lines 356-375 over the market states. *)
Fixpoint combination_pass (combo_strategies : list AIStrategy)
  (rounds : list Round) (acc : Advanced.Tally) : result Advanced.Tally :=
  match rounds with
  | [] => Ok acc
  | r :: rounds' =>
      acc' <- combination_round combo_strategies r acc ;;
      combination_pass combo_strategies rounds' acc'
  end.

(** Lines 377-378: the states whose fused confidence, on signals generated
    anew, exceeds [0.6]. *)
Fixpoint count_trades (combo_strategies : list AIStrategy)
  (rounds : list Round) : result nat :=
  match rounds with
  | [] => Ok 0%nat
  | r :: rounds' =>
      fused <- Advanced.mathematical_tensor_fusion
                 (generate_signals combo_strategies (state r) (recount_draws r))
                 (combo_weights combo_strategies) ;;
      n <- count_trades combo_strategies rounds' ;;
      ret (if Rgt_dec (Advanced.fused_confidence fused) (6 / 10)
           then S n else n)
  end.

(** An entry of [combination_results]. *)
Record CombinationResult : Type := mkCombinationResult {
  avg_profit_per_trade : R;
  combination_accuracy : R;
  combination_total_profit : R;
  trades_made : nat;
  strategies_count : nat
}.

(** Lines 350-389 for one combination. *)
Definition combination_result (combo_strategies : list AIStrategy)
  (rounds : list Round) : result CombinationResult :=
  tally <- combination_pass combo_strategies rounds (Advanced.mkTally 0 0) ;;
  trades_made <- count_trades combo_strategies rounds ;;
  avg_profit <-
    (if Nat.ltb 0 trades_made
     then truediv (Advanced.total_profit tally) (INR (Nat.max 1 trades_made))
     else ret 0) ;;
  accuracy <-
    (if Nat.ltb 0 trades_made
     then truediv (INR (Advanced.correct_predictions tally))
                  (INR (Nat.max 1 trades_made))
     else ret 0) ;;
  ret {| avg_profit_per_trade := avg_profit;
         combination_accuracy := accuracy;
         combination_total_profit := Advanced.total_profit tally;
         trades_made := trades_made;
         strategies_count := length combo_strategies |}.

End Strategy.

(* ================================================================== *)
(** ** advanced_tensor_mathematical_proof.py: the uniqueness scores *)

Module Uniqueness.
Import Py.

(** A Python [float] that may be [float('inf')]: the finite values and the
    infinities of [Np.npfloat], with the same arithmetic. *)
Definition pyfloat : Type := Np.npfloat.

(** [min(a, d)] for a finite [d]: [d] when it is smaller, else [a]. *)
Definition py_min (a : pyfloat) (d : R) : pyfloat :=
  if Np.gtb a (Np.Fin d) then Np.Fin d else a.

(** The entry that [calculate_strategy_uniqueness] stores for a strategy. *)
Record Metrics : Type := mkMetrics {
  specialty_uniqueness : R;
  math_uniqueness : R;
  performance_uniqueness : pyfloat;
  complexity_uniqueness : R;
  total_uniqueness : pyfloat;
  mathematical_basis : string
}.

(** [[accuracy, magnitude_range[1] - magnitude_range[0]]]. *)
Definition performance_vector (s : Strategy.AIStrategy) : list R :=
  [Strategy.accuracy s;
   snd (Strategy.magnitude_range s) - fst (Strategy.magnitude_range s)].

(** Line 236. *)
Definition distance (v w : list R) : result R :=
  math_sqrt (sum (map (fun '(a, b) => (a - b) ^ 2) (combine v w))).

(** Lines 232-237: the loop over the other strategies. *)
Fixpoint nearest (i : nat) (v : list R)
  (others : list (nat * Strategy.AIStrategy)) (min_distance : pyfloat)
  : result pyfloat :=
  match others with
  | [] => Ok min_distance
  | (j, other_strategy) :: rest =>
      if Nat.eqb i j then nearest i v rest min_distance
      else
        d <- distance v (performance_vector other_strategy) ;;
        nearest i v rest (py_min min_distance d)
  end.

Definition enumerate {A : Type} (xs : list A) : list (nat * A) :=
  combine (seq 0 (length xs)) xs.

(** Lines 218-260: the scores of the strategy at position [i]. *)
Definition uniqueness_of (strategies : list Strategy.AIStrategy)
  (i : nat) (strategy : Strategy.AIStrategy) : result Metrics :=
  let specialty_count :=
    length (filter (fun s => String.eqb (Strategy.specialty s)
                                        (Strategy.specialty strategy))
                   strategies) in
  specialty_uniqueness <- truediv 1 (INR specialty_count) ;;
  let math_domain_count :=
    length (filter (fun s => String.eqb (Strategy.math_domain s)
                                        (Strategy.math_domain strategy))
                   strategies) in
  math_uniqueness <- truediv 1 (INR math_domain_count) ;;
  min_distance <- nearest i (performance_vector strategy)
                          (enumerate strategies) Np.PInf ;;
  let performance_uniqueness := min_distance in
  let complexity_values := map Strategy.computational_complexity strategies in
  mean_complexity <- truediv (IZR (sum_int complexity_values))
                             (len complexity_values) ;;
  let complexity_uniqueness :=
    Rabs (IZR (Strategy.computational_complexity strategy) - mean_complexity)
    / 10 in
  let total_uniqueness :=
    Np.add (Np.add (Np.add (Np.Fin (specialty_uniqueness * (3 / 10)))
                           (Np.Fin (math_uniqueness * (25 / 100))))
                   (Np.mul performance_uniqueness (Np.Fin (25 / 100))))
           (Np.Fin (complexity_uniqueness * (2 / 10))) in
  ret {| specialty_uniqueness := specialty_uniqueness;
         math_uniqueness := math_uniqueness;
         performance_uniqueness := performance_uniqueness;
         complexity_uniqueness := complexity_uniqueness;
         total_uniqueness := total_uniqueness;
         mathematical_basis := Strategy.math_domain strategy |}.

(** [d[key] = value] on the items of a dictionary: an existing key keeps
    its place and takes the new value, a new key goes to the end. *)
Fixpoint dict_set {V : Type} (d : list (string * V)) (key : string) (value : V)
  : list (string * V) :=
  match d with
  | [] => [(key, value)]
  | (k, v) :: rest =>
      if String.eqb k key then (k, value) :: rest
      else (k, v) :: dict_set rest key value
  end.

(** The loop of lines 217-260 over the strategies still to visit. *)
Fixpoint uniqueness_loop (strategies : list Strategy.AIStrategy)
  (todo : list (nat * Strategy.AIStrategy))
  (uniqueness_metrics : list (string * Metrics))
  : result (list (string * Metrics)) :=
  match todo with
  | [] => Ok uniqueness_metrics
  | (i, strategy) :: rest =>
      m <- uniqueness_of strategies i strategy ;;
      uniqueness_loop strategies rest
        (dict_set uniqueness_metrics (Strategy.name strategy) m)
  end.

(** Lines 212-262. *)
Definition calculate_strategy_uniqueness
  (strategies : list Strategy.AIStrategy) : result (list (string * Metrics)) :=
  uniqueness_loop strategies (enumerate strategies) [].

End Uniqueness.

(* ================================================================== *)
(** ** mathematical_proof_simple.py: the analysis around the portfolio *)

Module SimpleProof.
Import Py Simple.

Section Proof.
Context {F : Type} `{Number F}.

(** An entry of [individual_performances]. *)
Record Individual : Type := mkIndividual {
  system : string;
  individual_expected_pnl : F;
  individual_risk_adjusted : F
}.

(** Lines 64-80: the analysis of one system on its own. *)
Definition individual_performance (s : AiSystem F) : result Individual :=
  let avg_win := mul (avg_magnitude s) (of_int 60) in
  let avg_loss := mul (avg_magnitude s) (of_int 60) in
  let expected_pnl :=
    sub (sub (mul (accuracy s) avg_win)
             (mul (sub (of_int 1) (accuracy s)) avg_loss))
        commission_per_trade in
  let volatility := mul (mul (avg_magnitude s) (of_int 60)) (lit 5 10) in
  risk_adjusted <-
    (if gt volatility (of_int 0) then ndiv expected_pnl volatility
     else ret (of_int 0)) ;;
  ret {| system := name s;
         individual_expected_pnl := expected_pnl;
         individual_risk_adjusted := risk_adjusted |}.

(** Line 100. *)
Definition equal_weights : list F :=
  [lit 2 10; lit 2 10; lit 2 10; lit 2 10; lit 2 10].





(** An element of [test_cases]. *)
Definition TestCase : Type := (string * list F * Performance F)%type.

Definition case_risk_adjusted (c : TestCase) : F := risk_adjusted (snd c).


(** [max(items, key=key)]: the first item whose key no later item exceeds;
    a [ValueError] on an empty list. *)
Definition max_by {A : Type} (key : A -> F) (items : list A) : result A :=
  match items with
  | [] => Raise (ValueError "max() arg is an empty sequence"%string)
  | x :: rest =>
      Ok (fold_left (fun best y => if gt (key y) (key best) then y else best)
                    rest x)
  end.

(** Lines 138-141: the best case, the baseline and their difference. *)
Definition improvement (test_cases : list TestCase) : result F :=
  best_case <- max_by case_risk_adjusted test_cases ;;
  baseline_case <- Np.item test_cases 0 ;;
  ret (sub (case_risk_adjusted best_case) (case_risk_adjusted baseline_case)).


End Proof.

Arguments Individual F : clear implicits.
Arguments TestCase F : clear implicits.

End SimpleProof.

(* ================================================================== *)
(** ** mathematical_proof_validation.py: the pieces of [main] *)

Module ValidationMain.
Import Py Validation.

(** Lines 176-177: [np.zeros(n)] with a [1.0] stored at position [i], an
    [IndexError] when there is no such position. *)
Definition individual_weights (n i : nat) : result (list R) :=
  if Nat.ltb i n
  then Ok (map (fun j => if Nat.eqb j i then 1 else 0) (seq 0 n))
  else Raise IndexError.

(** Lines 230-231: the P&L of one trade as [main] recomputes it. *)
Definition series_pnl (prediction : Features Np.npfloat) (actual : Outcome)
  : Np.npfloat :=
  Np.sub
    (Np.mul
       (Np.mul (Np.mul (Np.Fin 60) (Np.Fin (actual_magnitude actual)))
               (Np.sign (direction prediction)))
       (Np.Fin (actual_direction actual)))
    (Np.Fin (25 / 100)).

(** Lines 179-180, 198-199, 210-211: fuse, then measure. *)
Definition evaluate (signals : list (list (Features R)))
  (weights : list R) (actual_outcomes : list Outcome) : result Metrics :=
  fused <- tensor_fusion signals weights ;;
  compute_performance_metrics fused actual_outcomes.

End ValidationMain.

(* ================================================================== *)
(** ** The vocabulary of the specification *)

Module Spec.

(** The configuration constants of the profit-and-loss model. *)
Definition position_size : R := 60.
Definition commission : R := 25 / 100.

(** The normalized weight vector of section 4.1, with the fallback as the
    fusion of [advanced_tensor_mathematical_proof.py] takes it: uniform
    weights unless the sum is positive. *)
Definition normalized (weights : list R) : list R :=
  if Rgt_dec (Py.sum weights) 0
  then map (fun w => w / Py.sum weights) weights
  else repeat (1 / INR (length weights)) (length weights).

(** The weighted sum of [direction * confidence]. *)
Definition weighted_direction_sum
  (signals : list Advanced.Signal) (nw : list R) : R :=
  Py.sum (map (fun '(s, w) =>
                 IZR (Advanced.direction s) * Advanced.confidence s * w)
              (combine signals nw)).

(** The weighted sum of the confidences. *)
Definition weighted_confidence
  (signals : list Advanced.Signal) (nw : list R) : R :=
  Py.sum (map (fun '(s, w) => Advanced.confidence s * w) (combine signals nw)).

(** The arithmetic mean and the population variance of integer data. *)
Definition mean_int (ds : list Z) : R :=
  IZR (Py.sum_int ds) / INR (length ds).

Definition population_variance (ds : list Z) : R :=
  Py.sum (map (fun d => (IZR d - mean_int ds) ^ 2) ds) / INR (length ds).

(** Clamping to the closed unit interval. *)
Definition clamp01 (x : R) : R := Rmin 1 (Rmax 0 x).

(** A direction is one of the two signs. *)
Definition is_direction (d : Z) : Prop := d = 1%Z \/ d = (-1)%Z.

(** The Shannon score of line 201 as a closed expression. *)
Definition shannon (signals : list Advanced.Signal) : R :=
  - Py.sum (map (fun c => c * (ln (Rmax (1 / 1000) c) / ln 2))
             (filter (fun c => if Rgt_dec c 0 then true else false)
                     (map Advanced.confidence signals))).

(** What the fusion returns on a non-empty input of matching lengths. *)
Definition fusion_value (signals : list Advanced.Signal) (weights : list R)
  : Advanced.Fused :=
  let nw := normalized weights in
  {| Advanced.fused_confidence := weighted_confidence signals nw;
     Advanced.fused_direction :=
       if Rgt_dec (weighted_direction_sum signals nw) 0
       then 1%Z else (-1)%Z;
     Advanced.fused_magnitude :=
       Py.sum (map (fun '(s, w) =>
                   Advanced.magnitude s * Advanced.confidence s * w)
                (combine signals nw));
     Advanced.coherence :=
       Rmax 0 (1 - sqrt (population_variance (map Advanced.direction signals)));
     Advanced.information_content := shannon signals;
     Advanced.contributing_signals := length signals |}.

(** What [calculate_portfolio_performance] returns, in exact arithmetic, for
    the normalized weights [nw]. *)
Definition portfolio_of (ai_systems : list (Simple.AiSystem R)) (nw : list R)
  : Simple.Performance R :=
  let acc := Py.sum (map (fun '(w, s) => w * Simple.accuracy s)
                         (combine nw ai_systems)) in
  let mag := Py.sum (map (fun '(w, s) => w * Simple.avg_magnitude s)
                         (combine nw ai_systems)) in
  let rel := Py.sum (map (fun '(w, s) => w * Simple.reliability s)
                         (combine nw ai_systems)) in
  let pnl := acc * (mag * 60) - (1 - acc) * (mag * 60) - 25 / 100 in
  let vol := mag * 60 * (5 / 10) in
  {| Simple.expected_pnl := pnl;
     Simple.risk_adjusted := if Rgt_dec vol 0 then pnl / vol else 0;
     Simple.portfolio_accuracy := acc;
     Simple.portfolio_magnitude := mag;
     Simple.portfolio_reliability := rel |}.

(** The mean and the population standard deviation of a series of reals. *)
Definition mean (xs : list R) : R := Py.sum xs / INR (length xs).

Definition std (xs : list R) : R :=
  sqrt (mean (map (fun x => (x + - mean xs) * (x + - mean xs)) xs)).

(** The fused direction of a prediction matches the actual direction of a
    trade, as [compute_performance_metrics] compares them. *)
Definition direction_matches (prediction : Validation.Features Np.npfloat)
  (actual : Validation.Outcome) : Prop :=
  Np.eqb (Np.sign (Validation.direction prediction))
         (Np.Fin (Validation.actual_direction actual)) = true.

End Spec.

(* ================================================================== *)
(** ** Concrete inputs *)

Module Examples.

(** The worked example of section 8: two signals, weights [0.6] and [0.4]. *)
Definition example_signals : list Advanced.Signal :=
  [ Advanced.mkSignal (8 / 10) 1 (2 / 100);
    Advanced.mkSignal (4 / 10) (-1) (1 / 100) ].

Definition example_weights : list R := [6 / 10; 4 / 10].

(** Two signals of opposite directions and equal confidence, to be fused
    with equal weights. *)
Definition tie_signals : list Advanced.Signal :=
  [ Advanced.mkSignal (1 / 2) 1 (2 / 100);
    Advanced.mkSignal (1 / 2) (-1) (2 / 100) ].

Definition tie_weights : list R := [1; 1].

(** One signal of confidence one half. *)
Definition half_confident : Advanced.Signal :=
  Advanced.mkSignal (1 / 2) 1 (2 / 100).

(** Five weights that are all zero. *)
Definition zero_weights : list R := [0; 0; 0; 0; 0].

(** The first two systems of [ai_systems] with the weights [0.6] and [0.4]
    of the worked example, and the same weights multiplied by [3], all in
    binary64. *)
Definition two_systems : list (Simple.AiSystem PrimFloat.float) :=
  firstn 2 Simple.ai_systems.

Definition binary64_weights : list PrimFloat.float :=
  [Py.lit 6 10; Py.lit 4 10].

Definition binary64_scale : PrimFloat.float := Py.of_int 3.

Definition binary64_scaled_weights : list PrimFloat.float :=
  map (Py.mul binary64_scale) binary64_weights.

(** A series of two profits. *)
Definition two_profits : list R := [0; 2].

(** The "Full Advanced" combination of [prove_additive_value] with its
    priority weights, at a market state where each of the five strategies
    signals confidence [0.625], direction [+1] and magnitude [0.02]. *)
Definition full_advanced_signals : list Advanced.Signal :=
  repeat (Advanced.mkSignal (5 / 8) 1 (2 / 100)) 5.

Definition full_advanced_weights : list R :=
  [3; 28 / 10; 25 / 10; 22 / 10; 2].

(** Five zero weights in binary64. *)
Definition binary64_zero_weights : list PrimFloat.float :=
  repeat (Py.of_int 0) 5.

(** The weights [[2.0**1023, 2.0**1023]] in binary64: each of them is a
    finite number, their sum is not. *)
Definition huge_weights : list PrimFloat.float :=
  [FloatOps.Z.ldexp (Py.of_int 1) 1023; FloatOps.Z.ldexp (Py.of_int 1) 1023].

(** A series of two equal profits. *)
Definition flat_profits : list R := [5; 5].

(** The baseline weights of [mathematical_proof]. *)
Definition equal_weights : list R :=
  [2 / 10; 2 / 10; 2 / 10; 2 / 10; 2 / 10].

End Examples.

(* ================================================================== *)
(** ** Conditions on the data of the simulation *)

Module Conditions.

(** A strategy whose reliability is a proportion and whose magnitude range
    is ordered and not negative. *)
Definition well_formed_strategy (s : Strategy.AIStrategy) : Prop :=
  0 <= Strategy.reliability s <= 1 /\
  0 <= fst (Strategy.magnitude_range s) <= snd (Strategy.magnitude_range s).

(** [random.random()] returns a number of the unit interval. *)
Definition unit_draws (d : Strategy.Draws) : Prop :=
  0 <= Strategy.fraction d <= 1.

(** A signal as the data model has it. *)
Definition well_formed_signal (s : Advanced.Signal) : Prop :=
  0 <= Advanced.confidence s <= 1 /\
  Spec.is_direction (Advanced.direction s) /\
  0 <= Advanced.magnitude s.

(** The five specialties that [_compute_direction] knows by name. *)
Definition specialised (s : Strategy.AIStrategy) : Prop :=
  In (Strategy.specialty s)
     ["deep_learning"; "microstructure"; "state_prediction";
      "profit_optimization"; "multi_dimensional"]%string.


(** A market state as [prove_additive_value] builds them, draws for which
    every random number is one half, and a round made of them. *)
Definition sample_state : Strategy.MarketState :=
  [ ("pattern_strength"%string, 8 / 10);
    ("bid_ask_pressure"%string, 7 / 10);
    ("transition_prob"%string, 7 / 10);
    ("risk_reward"%string, 2);
    ("momentum"%string, 9 / 10);
    ("volatility"%string, 5 / 10);
    ("volume"%string, 6000000) ].

Definition sample_draws : Strategy.Draws :=
  Strategy.mkDraws 0 (1 / 2) (1 / 2).

Definition sample_round : Strategy.Round :=
  Strategy.mkRound sample_state (fun _ => sample_draws) (fun _ => sample_draws)
                   1 (3 / 100).

(** The "Advanced Only" and "Basic Only" combinations of
    [prove_additive_value]. *)
Definition advanced_only : list Strategy.AIStrategy :=
  firstn 3 Strategy.create_ai_strategies.

Definition basic_only : list Strategy.AIStrategy :=
  skipn 5 Strategy.create_ai_strategies.





(** A row of finite features as a row of array elements. *)
Definition to_np (f : Validation.Features R) : Validation.Features Np.npfloat :=
  Validation.mkFeatures
    (Np.Fin (Validation.confidence f)) (Np.Fin (Validation.direction f))
    (Np.Fin (Validation.magnitude f)) (Np.Fin (Validation.reliability f)).

(** A row whose four features are NaN. *)
Definition nan_row : Validation.Features Np.npfloat :=
  Validation.mkFeatures Np.NaN Np.NaN Np.NaN Np.NaN.

(** An array [signals] of [n] systems for every trade. *)
Definition rectangular (n : nat) (signals : list (list (Validation.Features R)))
  : Prop :=
  Forall (fun systems => length systems = n) signals.

(** The loss that a wrong prediction is booked at. *)
Definition booked_loss (a : Validation.Outcome) : R :=
  - Validation.actual_magnitude a * 60 - 25 / 100.

(** Two trades of two systems each, and their outcomes. *)
Definition sample_signals : list (list (Validation.Features R)) :=
  [ [ Validation.mkFeatures (8 / 10) 1 (2 / 100) (9 / 10);
      Validation.mkFeatures (4 / 10) (-1) (1 / 100) (7 / 10) ];
    [ Validation.mkFeatures (6 / 10) (-1) (3 / 100) (9 / 10);
      Validation.mkFeatures (5 / 10) (-1) (2 / 100) (7 / 10) ] ].

Definition sample_outcomes : list Validation.Outcome :=
  [ Validation.mkOutcome 1 (2 / 100); Validation.mkOutcome (-1) (3 / 100) ].

(** The weighted sum of a column. *)
Definition dot (ws xs : list R) : R :=
  Py.sum (map (fun '(w, x) => w * x) (combine ws xs)).

(** The row that finite weights [nw] make of the rows of one trade. *)
Definition weighted_row (nw : list R) (systems : list (Validation.Features R))
  : Validation.Features R :=
  Validation.mkFeatures
    (dot nw (map Validation.confidence systems))
    (dot nw (map Validation.direction systems))
    (dot nw (map Validation.magnitude systems))
    (dot nw (map Validation.reliability systems)).

(** A row of zeros, the default of a lookup. *)
Definition zero_row : Validation.Features R := Validation.mkFeatures 0 0 0 0.

(** The share of a weight [w] in weights of the given total and number, as
    the fusion normalizes them. *)
Definition share (total : R) (n : nat) (w : R) : R :=
  if Rgt_dec total 0 then w / total else 1 / INR n.

End Conditions.

(* ================================================================== *)
(** ** Facts about the Python fragment *)

Module PyFacts.
Import Py.

Lemma fold_left_Rplus_acc (xs : list R) (a : R) :
  fold_left Rplus xs a = a + fold_left Rplus xs 0.
Proof.
  revert a; induction xs as [|x xs IH]; intros a; simpl.
  - lra.
  - rewrite (IH (a + x)), (IH (0 + x)). lra.
Qed.

Lemma sum_nil : sum [] = 0.
Proof. reflexivity. Qed.

Lemma sum_cons (x : R) (xs : list R) : sum (x :: xs) = x + sum xs.
Proof.
  unfold sum; simpl. rewrite fold_left_Rplus_acc. lra.
Qed.

Lemma sum_map_scale {A : Type} (f : A -> R) (k : R) (xs : list A) :
  sum (map (fun a => f a * k) xs) = sum (map f xs) * k.
Proof.
  induction xs as [|a xs IH]; simpl.
  - rewrite sum_nil. lra.
  - rewrite !sum_cons, IH. lra.
Qed.

Lemma sum_map_div (k : R) (xs : list R) :
  sum (map (fun w => w / k) xs) = sum xs / k.
Proof.
  induction xs as [|a xs IH]; simpl.
  - rewrite sum_nil. unfold Rdiv. lra.
  - rewrite !sum_cons, IH. unfold Rdiv. lra.
Qed.

Lemma sum_map_Rmult (c : R) (xs : list R) :
  sum (map (Rmult c) xs) = c * sum xs.
Proof.
  induction xs as [|x xs IH]; simpl.
  - rewrite sum_nil. lra.
  - rewrite !sum_cons, IH. lra.
Qed.

(** Scaling every weight scales the sum, so the quotients stay. *)
Lemma scaled_quotients (c : R) (weights : list R) :
  0 < c -> sum weights <> 0 ->
  map (fun w => w / sum (map (Rmult c) weights)) (map (Rmult c) weights) =
  map (fun w => w / sum weights) weights.
Proof.
  intros Hc Hs. rewrite sum_map_Rmult, map_map.
  apply map_ext. intros w. field. lra.
Qed.

Lemma sum_repeat (x : R) (n : nat) : sum (repeat x n) = INR n * x.
Proof.
  induction n as [|n IH].
  - simpl. rewrite sum_nil. lra.
  - cbn [repeat]. rewrite sum_cons, IH, S_INR. lra.
Qed.

Lemma sum_nonneg (xs : list R) : Forall (fun x => 0 <= x) xs -> 0 <= sum xs.
Proof.
  induction 1 as [|x xs Hx _ IH].
  - rewrite sum_nil. lra.
  - rewrite sum_cons. lra.
Qed.

(** A non-negative list with a non-zero entry has a positive sum. *)
Lemma sum_pos (xs : list R) :
  Forall (fun x => 0 <= x) xs -> Exists (fun x => x <> 0) xs -> 0 < sum xs.
Proof.
  intros Hall Hex. induction Hex as [x xs Hx | x xs _ IH].
  - inversion_clear Hall as [|? ? H0 Hrest]. rewrite sum_cons.
    pose proof (sum_nonneg xs Hrest). lra.
  - inversion_clear Hall as [|? ? H0 Hrest]. rewrite sum_cons.
    specialize (IH Hrest). lra.
Qed.

Lemma sum_map_all_zero {A : Type} (f : A -> R) (xs : list A) :
  (forall a, In a xs -> f a = 0) -> sum (map f xs) = 0.
Proof.
  induction xs as [|a xs IH]; intros H; simpl.
  - apply sum_nil.
  - rewrite sum_cons, IH, (H a); [lra | now left | intros; apply H; now right].
Qed.

Lemma sum_map_nonneg {A : Type} (f : A -> R) (xs : list A) :
  (forall a, 0 <= f a) -> 0 <= sum (map f xs).
Proof.
  intros H. apply sum_nonneg. apply Forall_forall.
  intros x Hin. apply in_map_iff in Hin as [a [<- _]]. apply H.
Qed.

Lemma len_pos {A : Type} (xs : list A) : xs <> [] -> 0 < len xs.
Proof.
  destruct xs as [|a xs]; [congruence|]. intros _.
  unfold len. apply lt_0_INR. simpl. lia.
Qed.

Lemma truediv_ok (x y : R) : y <> 0 -> truediv x y = Ok (x / y).
Proof.
  intros Hy. unfold truediv. destruct (Req_dec_T y 0); [contradiction|reflexivity].
Qed.

Lemma truediv_zero (x : R) : truediv x 0 = Raise ZeroDivisionError.
Proof.
  unfold truediv. destruct (Req_dec_T 0 0); [reflexivity|congruence].
Qed.

Lemma math_sqrt_ok (x : R) : 0 <= x -> math_sqrt x = Ok (sqrt x).
Proof.
  intros Hx. unfold math_sqrt. destruct (Rlt_dec x 0); [lra|reflexivity].
Qed.

Lemma math_log2_ok (x : R) : 0 < x -> math_log2 x = Ok (ln x / ln 2).
Proof.
  intros Hx. unfold math_log2. destruct (Rle_dec x 0); [lra|reflexivity].
Qed.

(** A comprehension whose body never raises is a [map]. *)
Lemma mapM_ok {A B : Type} (f : A -> result B) (g : A -> B) (xs : list A) :
  (forall a, In a xs -> f a = Ok (g a)) -> mapM f xs = Ok (map g xs).
Proof.
  induction xs as [|a xs IH]; intros H; simpl.
  - reflexivity.
  - rewrite (H a) by now left.
    rewrite IH by (intros; apply H; now right). reflexivity.
Qed.

Lemma mapM_length {A B : Type} (f : A -> result B) (xs : list A) (ys : list B) :
  mapM f xs = Ok ys -> length ys = length xs.
Proof.
  revert ys; induction xs as [|a xs IH]; intros ys; simpl.
  - intros [= <-]. reflexivity.
  - destruct (f a) as [b|e]; [|discriminate].
    destruct (mapM f xs) as [bs|e]; [|discriminate].
    intros [= <-]. simpl. f_equal. now apply IH.
Qed.

End PyFacts.

(* ================================================================== *)
(** ** Facts about the fusion of advanced_tensor_mathematical_proof.py *)

Module AdvancedFacts.
Import Py PyFacts Advanced.

Lemma normalize_weights_nil : normalize_weights [] = Raise ZeroDivisionError.
Proof.
  unfold normalize_weights. cbn [sum fold_left].
  destruct (Rgt_dec 0 0) as [H|_]; [lra|].
  unfold len; cbn [length INR]. rewrite truediv_zero. reflexivity.
Qed.

Lemma normalize_weights_spec (weights : list R) :
  weights <> [] -> normalize_weights weights = Ok (Spec.normalized weights).
Proof.
  intros Hne. unfold normalize_weights, Spec.normalized.
  destruct (Rgt_dec (sum weights) 0) as [Hpos|Hnpos].
  - apply mapM_ok. intros w _. apply truediv_ok. lra.
  - rewrite truediv_ok by (pose proof (len_pos weights Hne); lra).
    reflexivity.
Qed.

Lemma normalized_length (weights : list R) :
  length (Spec.normalized weights) = length weights.
Proof.
  unfold Spec.normalized. destruct (Rgt_dec _ _).
  - apply length_map.
  - apply repeat_length.
Qed.

(** The normalized weights add up to one, whatever the signs of the
    input. *)
Lemma normalized_sum (weights : list R) :
  weights <> [] -> sum (Spec.normalized weights) = 1.
Proof.
  intros Hne. unfold Spec.normalized.
  destruct (Rgt_dec (sum weights) 0) as [Hpos|Hnpos].
  - rewrite sum_map_div. field. lra.
  - rewrite sum_repeat. pose proof (len_pos weights Hne) as Hl.
    unfold len in Hl. field. lra.
Qed.

(** Scaling the input by a positive factor does not change them. *)
Lemma normalized_scale (c : R) (weights : list R) :
  0 < c -> Spec.normalized (map (Rmult c) weights) = Spec.normalized weights.
Proof.
  intros Hc. unfold Spec.normalized.
  rewrite sum_map_Rmult, length_map.
  destruct (Rgt_dec (sum weights) 0) as [Hpos|Hnpos];
    destruct (Rgt_dec (c * sum weights) 0) as [Hpos'|Hnpos'].
  - rewrite map_map. apply map_ext. intros w. field. lra.
  - exfalso. apply Hnpos'. apply Rmult_lt_0_compat; lra.
  - exfalso. apply Hnpos. apply Rnot_gt_le in Hnpos. nra.
  - reflexivity.
Qed.

Lemma population_variance_nonneg (ds : list Z) :
  0 <= Spec.population_variance ds.
Proof.
  unfold Spec.population_variance.
  destruct ds as [|d ds].
  - simpl. rewrite sum_nil. unfold Rdiv. lra.
  - apply Rmult_le_pos.
    + apply sum_map_nonneg. intros a. apply pow2_ge_0.
    + left. apply Rinv_0_lt_compat. apply lt_0_INR. simpl. lia.
Qed.

Lemma signal_coherence_spec (signals : list Signal) :
  signals <> [] ->
  signal_coherence signals =
  Ok (Rmax 0 (1 - sqrt (Spec.population_variance (map direction signals)))).
Proof.
  intros Hne. unfold signal_coherence.
  assert (Hd : map direction signals <> []) by (destruct signals; [congruence|discriminate]).
  pose proof (len_pos _ Hd) as Hl.
  rewrite (mapM_ok _ (fun d => (IZR d - Spec.mean_int (map direction signals)) ^ 2)).
  2:{ intros d _. rewrite truediv_ok by lra. reflexivity. }
  cbn [bind]. rewrite truediv_ok by lra. cbn [bind].
  change (sum _ / len _) with (Spec.population_variance (map direction signals)).
  rewrite math_sqrt_ok by apply population_variance_nonneg.
  reflexivity.
Qed.

Lemma shannon_information_spec (signals : list Signal) :
  shannon_information signals = Ok (Spec.shannon signals).
Proof.
  unfold shannon_information, Spec.shannon.
  rewrite (mapM_ok _ (fun c => c * (ln (Rmax (1 / 1000) c) / ln 2))).
  - reflexivity.
  - intros c _. rewrite math_log2_ok; [reflexivity|].
    pose proof (Rmax_l (1 / 1000) c). lra.
Qed.

(** The length check of lines 179-180. *)
Lemma fusion_length_mismatch (signals : list Signal) (weights : list R) :
  length signals <> length weights ->
  mathematical_tensor_fusion signals weights =
  Raise (ValueError "Signals and weights must have same length"%string).
Proof.
  intros Hlen. unfold mathematical_tensor_fusion.
  apply Nat.eqb_neq in Hlen. rewrite Hlen. reflexivity.
Qed.

(** The fusion returns on every non-empty input of matching lengths. *)
Lemma fusion_spec (signals : list Signal) (weights : list R) :
  signals <> [] -> length signals = length weights ->
  mathematical_tensor_fusion signals weights = Ok (Spec.fusion_value signals weights).
Proof.
  intros Hne Hlen. unfold mathematical_tensor_fusion.
  rewrite (proj2 (Nat.eqb_eq _ _) Hlen). cbn [negb].
  assert (Hw : weights <> []).
  { destruct weights; [|discriminate]. destruct signals; [congruence|discriminate]. }
  rewrite (normalize_weights_spec _ Hw). cbn [bind].
  rewrite (signal_coherence_spec _ Hne). cbn [bind].
  rewrite shannon_information_spec. reflexivity.
Qed.

Lemma fusion_nil_nil : mathematical_tensor_fusion [] [] = Raise ZeroDivisionError.
Proof.
  unfold mathematical_tensor_fusion. cbn [length Nat.eqb negb].
  rewrite normalize_weights_nil. reflexivity.
Qed.

End AdvancedFacts.

(* ================================================================== *)
(** ** Properties of the signal fusion *)

Module FusionTheorems.
Import Py PyFacts Advanced AdvancedFacts.

(** Decides the comparisons of a goal whose numbers are all explicit. *)
Ltac settle_comparisons :=
  repeat match goal with
         | |- context [Rgt_dec ?a ?b] => destruct (Rgt_dec a b); try lra
         | |- context [Rlt_dec ?a ?b] => destruct (Rlt_dec a b); try lra
         | |- context [Req_dec_T ?a ?b] => destruct (Req_dec_T a b); try lra
         end.

Lemma tie_normalized : Spec.normalized Examples.tie_weights = [1 / 2; 1 / 2].
Proof.
  unfold Spec.normalized, Examples.tie_weights. rewrite !sum_cons, sum_nil.
  settle_comparisons. cbn [map]. repeat f_equal; lra.
Qed.

Lemma tie_direction_sum :
  Spec.weighted_direction_sum Examples.tie_signals (Spec.normalized Examples.tie_weights) = 0.
Proof.
  rewrite tie_normalized. unfold Spec.weighted_direction_sum, Examples.tie_signals.
  cbn [combine map direction confidence]. rewrite !sum_cons, sum_nil. lra.
Qed.

(** C1, the tie.  Two signals of opposite directions and equal confidence,
    fused with equal weights, have a weighted direction sum of exactly zero,
    and the fused direction is [-1], not [+1]. *)
Lemma fused_direction_tie_is_minus_one :
  length Examples.tie_signals = length Examples.tie_weights /\
  Spec.weighted_direction_sum Examples.tie_signals (Spec.normalized Examples.tie_weights) = 0 /\
  exists f,
    mathematical_tensor_fusion Examples.tie_signals Examples.tie_weights = Ok f /\
    fused_direction f = (-1)%Z /\
    fused_direction f <> 1%Z.
Proof.
  split; [reflexivity|]. split; [apply tie_direction_sum|].
  eexists. split.
  - apply fusion_spec; [discriminate|reflexivity].
  - cbn [Spec.fusion_value fused_direction]. rewrite tie_direction_sum.
    destruct (Rgt_dec 0 0); [lra|]. split; [reflexivity|discriminate].
Qed.

(** C1, as the code has it.  On every non-empty list of signals and every
    weight vector of the same length the fusion returns, and the fused
    direction is the sign of the weighted sum of direction times confidence
    when that sum is not zero, and [-1] when the sum is exactly zero. *)
Theorem fused_direction_is_sign_with_negative_tie
  (signals : list Signal) (weights : list R) :
  signals <> [] -> length signals = length weights ->
  exists f,
    mathematical_tensor_fusion signals weights = Ok f /\
    (Spec.weighted_direction_sum signals (Spec.normalized weights) > 0 ->
     fused_direction f = 1%Z) /\
    (Spec.weighted_direction_sum signals (Spec.normalized weights) < 0 ->
     fused_direction f = (-1)%Z) /\
    (Spec.weighted_direction_sum signals (Spec.normalized weights) = 0 ->
     fused_direction f = (-1)%Z).
Proof.
  intros Hne Hlen. eexists. split; [apply fusion_spec; assumption|].
  cbn [Spec.fusion_value fused_direction].
  destruct (Rgt_dec _ 0) as [Hpos|Hnpos]; repeat split; intros; try reflexivity; lra.
Qed.

Lemma fused_direction_is_sign_with_negative_tie_example :
  Examples.example_signals <> [] /\
  length Examples.example_signals = length Examples.example_weights /\
  exists f,
    mathematical_tensor_fusion Examples.example_signals Examples.example_weights = Ok f /\
    (Spec.weighted_direction_sum Examples.example_signals
       (Spec.normalized Examples.example_weights) > 0 ->
     fused_direction f = 1%Z) /\
    (Spec.weighted_direction_sum Examples.example_signals
       (Spec.normalized Examples.example_weights) < 0 ->
     fused_direction f = (-1)%Z) /\
    (Spec.weighted_direction_sum Examples.example_signals
       (Spec.normalized Examples.example_weights) = 0 ->
     fused_direction f = (-1)%Z).
Proof.
  split; [discriminate|]. split; [reflexivity|].
  apply (fused_direction_is_sign_with_negative_tie
           Examples.example_signals Examples.example_weights);
    [discriminate|reflexivity].
Defined.

(** C2, the magnitude.  A single signal of confidence one half, fused alone
    with weight [1.0], comes back with half its magnitude. *)
Lemma single_signal_magnitude_is_scaled :
  exists f,
    mathematical_tensor_fusion [Examples.half_confident] [1] = Ok f /\
    fused_magnitude f = 1 / 100 /\
    fused_magnitude f <> magnitude Examples.half_confident.
Proof.
  eexists. split; [apply fusion_spec; [discriminate|reflexivity]|].
  cbn [Spec.fusion_value fused_magnitude].
  assert (Hn : Spec.normalized [1] = [1 / 1]).
  { unfold Spec.normalized. rewrite sum_cons, sum_nil.
    destruct (Rgt_dec (1 + 0) 0); [|lra]. cbn [map]. repeat f_equal; lra. }
  rewrite Hn. unfold Examples.half_confident.
  cbn [combine map magnitude confidence]. rewrite sum_cons, sum_nil.
  split; lra.
Qed.

Lemma normalized_singleton_one : Spec.normalized [1] = [1].
Proof.
  unfold Spec.normalized. rewrite sum_cons, sum_nil.
  destruct (Rgt_dec (1 + 0) 0); [|lra]. cbn [map]. f_equal. lra.
Qed.

(** C2, as the code has it.  Fusing a single signal, of direction [-1] or
    [+1] and of non-negative confidence, alone with weight [1.0] returns its
    confidence unchanged, its magnitude multiplied by its confidence, and
    its direction unchanged unless the confidence-weighted direction sum is
    exactly zero. *)
Theorem single_signal_fusion (s : Signal) :
  Spec.is_direction (direction s) -> 0 <= confidence s ->
  exists f,
    mathematical_tensor_fusion [s] [1] = Ok f /\
    fused_confidence f = confidence s /\
    fused_magnitude f = magnitude s * confidence s /\
    (Spec.weighted_direction_sum [s] [1] <> 0 -> fused_direction f = direction s).
Proof.
  intros Hdir Hconf. eexists.
  split; [apply fusion_spec; [discriminate|reflexivity]|].
  cbn [Spec.fusion_value fused_confidence fused_magnitude fused_direction].
  rewrite normalized_singleton_one.
  unfold Spec.weighted_confidence, Spec.weighted_direction_sum.
  cbn [combine map]. rewrite !sum_cons, !sum_nil.
  repeat split; try lra.
  intros Hsum. destruct Hdir as [Hd|Hd]; rewrite Hd in *;
    destruct (Rgt_dec _ 0) as [Hpos|Hnpos]; try reflexivity; exfalso; lra.
Qed.

Lemma single_signal_fusion_example :
  Spec.is_direction (direction Examples.half_confident) /\
  0 <= confidence Examples.half_confident /\
  exists f,
    mathematical_tensor_fusion [Examples.half_confident] [1] = Ok f /\
    fused_confidence f = confidence Examples.half_confident /\
    fused_magnitude f =
      magnitude Examples.half_confident * confidence Examples.half_confident /\
    (Spec.weighted_direction_sum [Examples.half_confident] [1] <> 0 ->
     fused_direction f = direction Examples.half_confident).
Proof.
  assert (Hd : Spec.is_direction (direction Examples.half_confident))
    by (left; reflexivity).
  assert (Hc : 0 <= confidence Examples.half_confident)
    by (unfold Examples.half_confident; cbn [confidence]; lra).
  split; [exact Hd|]. split; [exact Hc|].
  exact (single_signal_fusion Examples.half_confident Hd Hc).
Defined.

(** C3.  The fusion raises the [ValueError] of its length check whenever the
    two lengths differ and returns whenever they are equal and not zero;
    on two empty lists the lengths are equal and it raises a
    [ZeroDivisionError]. *)
Theorem fusion_raises_on_empty_input :
  (forall signals weights,
      length signals <> length weights ->
      mathematical_tensor_fusion signals weights =
      Raise (ValueError "Signals and weights must have same length"%string)) /\
  (forall signals weights,
      length signals = length weights -> signals <> [] ->
      exists f, mathematical_tensor_fusion signals weights = Ok f) /\
  length (@nil Signal) = length (@nil R) /\
  mathematical_tensor_fusion [] [] = Raise ZeroDivisionError.
Proof.
  split; [exact fusion_length_mismatch|].
  split; [|split; [reflexivity|exact fusion_nil_nil]].
  intros signals weights Hlen Hne. eexists. apply fusion_spec; assumption.
Qed.

(** C9.  Whatever the fusion returns on a list of signals and a weight
    vector of the same length has a fused direction in [{-1, +1}], and the
    fusion does return when the lists are not empty; a weight vector whose
    sum is zero is no exception. *)
Theorem fused_direction_in_range (signals : list Signal) (weights : list R) :
  length signals = length weights ->
  (forall f, mathematical_tensor_fusion signals weights = Ok f ->
             fused_direction f = 1%Z \/ fused_direction f = (-1)%Z) /\
  (signals <> [] -> exists f, mathematical_tensor_fusion signals weights = Ok f).
Proof.
  intros Hlen. split.
  - intros f Hf. destruct signals as [|s signals].
    + destruct weights; [|discriminate]. rewrite fusion_nil_nil in Hf. discriminate.
    + rewrite fusion_spec in Hf by (discriminate || assumption).
      injection Hf as <-. cbn [Spec.fusion_value fused_direction].
      destruct (Rgt_dec _ 0); [left|right]; reflexivity.
  - intros Hne. eexists. apply fusion_spec; assumption.
Qed.

Lemma fused_direction_in_range_zero_sum_example :
  length Examples.tie_signals = length [0; 0] /\
  (forall f, mathematical_tensor_fusion Examples.tie_signals [0; 0] = Ok f ->
             fused_direction f = 1%Z \/ fused_direction f = (-1)%Z) /\
  (Examples.tie_signals <> [] ->
   exists f, mathematical_tensor_fusion Examples.tie_signals [0; 0] = Ok f).
Proof.
  split; [reflexivity|].
  apply (fused_direction_in_range Examples.tie_signals [0; 0]). reflexivity.
Defined.

Lemma fold_left_Zadd_acc (xs : list Z) (a : Z) :
  fold_left Z.add xs a = (a + fold_left Z.add xs 0)%Z.
Proof.
  revert a; induction xs as [|x xs IH]; intros a; simpl.
  - lia.
  - rewrite (IH (a + x)%Z), (IH x). lia.
Qed.

Lemma sum_int_cons (d : Z) (ds : list Z) :
  sum_int (d :: ds) = (d + sum_int ds)%Z.
Proof.
  unfold sum_int; simpl. apply fold_left_Zadd_acc.
Qed.

Lemma sum_int_constant (d0 : Z) (ds : list Z) :
  (forall d, In d ds -> d = d0) ->
  sum_int ds = (Z.of_nat (length ds) * d0)%Z.
Proof.
  induction ds as [|d ds IH]; intros Hall.
  - reflexivity.
  - rewrite sum_int_cons, IH by (intros; apply Hall; now right).
    rewrite (Hall d) by now left. cbn [length]. lia.
Qed.

Lemma mean_int_constant (d0 : Z) (ds : list Z) :
  ds <> [] -> (forall d, In d ds -> d = d0) -> Spec.mean_int ds = IZR d0.
Proof.
  intros Hne Hall. unfold Spec.mean_int.
  rewrite (sum_int_constant d0 ds Hall), mult_IZR, <- INR_IZR_INZ.
  pose proof (len_pos ds Hne) as Hl. unfold len in Hl. field. lra.
Qed.

(** Identical data have no variance. *)
Lemma population_variance_constant (d0 : Z) (ds : list Z) :
  ds <> [] -> (forall d, In d ds -> d = d0) -> Spec.population_variance ds = 0.
Proof.
  intros Hne Hall. unfold Spec.population_variance.
  rewrite sum_map_all_zero.
  - unfold Rdiv. lra.
  - intros d Hd. rewrite (mean_int_constant d0 ds Hne Hall), (Hall d Hd). ring.
Qed.

(** The coherence diagnostic on any non-empty input, whatever the
    directions are. *)
Lemma coherence_of_fusion (signals : list Signal) (weights : list R) :
  signals <> [] -> length signals = length weights ->
  exists f,
    mathematical_tensor_fusion signals weights = Ok f /\
    coherence f =
      Spec.clamp01 (1 - sqrt (Spec.population_variance (map direction signals))) /\
    0 <= coherence f <= 1 /\
    ((forall s s', In s signals -> In s' signals -> direction s = direction s') ->
     coherence f = 1).
Proof.
  intros Hne Hlen. eexists. split; [apply fusion_spec; assumption|].
  cbn [Spec.fusion_value coherence].
  set (v := Spec.population_variance (map direction signals)).
  pose proof (sqrt_pos v) as Hs.
  assert (Hup : Rmax 0 (1 - sqrt v) <= 1) by (apply Rmax_lub; lra).
  split; [|split; [split; [apply Rmax_l|exact Hup]|]].
  - unfold Spec.clamp01. rewrite Rmin_right by exact Hup. reflexivity.
  - intros Hsame. destruct signals as [|s0 signals]; [congruence|].
    assert (Hv : v = 0).
    { apply (population_variance_constant (direction s0)); [discriminate|].
      intros d Hd. apply in_map_iff in Hd as [s [<- Hin]].
      apply Hsame; [exact Hin|now left]. }
    rewrite Hv, sqrt_0. rewrite Rmax_right; lra.
Qed.

(** C8.  On every non-empty list of signals whose directions are each [-1]
    or [+1] the coherence is [1 - sqrt] of the population variance of the
    raw directions, clamped to the unit interval; it lies between 0 and 1,
    and it is 1 when all the directions are identical. *)
Theorem coherence_is_clamped_spread (signals : list Signal) (weights : list R) :
  signals <> [] -> length signals = length weights ->
  Forall (fun s => Spec.is_direction (direction s)) signals ->
  exists f,
    mathematical_tensor_fusion signals weights = Ok f /\
    coherence f =
      Spec.clamp01 (1 - sqrt (Spec.population_variance (map direction signals))) /\
    0 <= coherence f <= 1 /\
    ((forall s s', In s signals -> In s' signals -> direction s = direction s') ->
     coherence f = 1).
Proof.
  intros Hne Hlen _. apply coherence_of_fusion; assumption.
Qed.

Lemma coherence_is_clamped_spread_example :
  exists f,
    mathematical_tensor_fusion Examples.example_signals Examples.example_weights = Ok f /\
    coherence f =
      Spec.clamp01
        (1 - sqrt (Spec.population_variance (map direction Examples.example_signals))) /\
    0 <= coherence f <= 1 /\
    ((forall s s', In s Examples.example_signals -> In s' Examples.example_signals ->
                   direction s = direction s') ->
     coherence f = 1).
Proof.
  apply (coherence_is_clamped_spread Examples.example_signals Examples.example_weights).
  - discriminate.
  - reflexivity.
  - unfold Examples.example_signals.
    apply Forall_cons; [left; reflexivity|].
    apply Forall_cons; [right; reflexivity|apply Forall_nil].
Defined.

End FusionTheorems.

(* ================================================================== *)
(** ** Properties of calculate_portfolio_performance *)

Module PortfolioTheorems.
Import Py PyFacts Simple.

Lemma nsum_R (xs : list R) : nsum xs = sum xs.
Proof. reflexivity. Qed.

Lemma ndiv_R (x y : R) : ndiv x y = truediv x y.
Proof.
  unfold ndiv, truediv. cbn [is_zero Number_R quot].
  destruct (Req_dec_T y 0); reflexivity.
Qed.

(** In exact arithmetic the routine returns as soon as the weights do not
    add up to zero, and on an empty weight list, where nothing is divided. *)
Lemma portfolio_spec (systems : list (AiSystem R)) (weights : list R) :
  weights = [] \/ sum weights <> 0 ->
  calculate_portfolio_performance systems weights =
  Ok (Spec.portfolio_of systems (map (fun w => w / sum weights) weights)).
Proof.
  intros Hw. unfold calculate_portfolio_performance.
  rewrite (mapM_ok _ (fun w => w / sum weights)).
  2:{ intros w Hin. rewrite ndiv_R, nsum_R. apply truediv_ok.
      destruct Hw as [->|Hs]; [destruct Hin|exact Hs]. }
  cbn [bind]. unfold Spec.portfolio_of, commission_per_trade, lit.
  rewrite !nsum_R. cbn [mul sub quot of_int gt Number_R].
  set (mag := sum (map (fun '(w, s) => w * avg_magnitude s) _)).
  destruct (Rgt_dec (mag * 60 * (5 / 10)) 0) as [Hpos|Hnpos].
  - rewrite ndiv_R, truediv_ok by (cbn [mul quot of_int Number_R]; lra).
    reflexivity.
  - reflexivity.
Qed.

(** A non-empty weight list whose sum is zero makes it raise. *)
Lemma portfolio_zero_sum (systems : list (AiSystem R)) (weights : list R) :
  weights <> [] -> sum weights = 0 ->
  calculate_portfolio_performance systems weights = Raise ZeroDivisionError.
Proof.
  intros Hne Hs. unfold calculate_portfolio_performance.
  destruct weights as [|w weights]; [congruence|].
  cbn [mapM]. rewrite ndiv_R, nsum_R, Hs, truediv_zero. reflexivity.
Qed.

Lemma portfolio_returns_spec (systems : list (AiSystem R)) (weights : list R)
  (p : Performance R) :
  calculate_portfolio_performance systems weights = Ok p ->
  p = Spec.portfolio_of systems (map (fun w => w / sum weights) weights).
Proof.
  intros Hp. destruct weights as [|w weights].
  - rewrite portfolio_spec in Hp by now left. congruence.
  - destruct (Req_dec_T (sum (w :: weights)) 0) as [Hz|Hnz].
    + rewrite portfolio_zero_sum in Hp by (discriminate || assumption). discriminate.
    + rewrite portfolio_spec in Hp by now right. congruence.
Qed.

(** Two binary64 numbers that [==] tells apart are different. *)
Lemma binary64_distinct (x y : PrimFloat.float) :
  PrimFloat.eqb x y = false -> PrimFloat.eqb x x = true -> x <> y.
Proof.
  intros Hxy Hxx Heq. rewrite <- Heq in Hxy. congruence.
Qed.

(** C10, in binary64.  The systems and the weights have the same length,
    the weights have a positive sum and the factor is positive, and yet the
    expected P&L for the scaled weights is not the expected P&L for the
    weights themselves: the two result records differ. *)
Lemma scaling_changes_the_binary64_result :
  length Examples.two_systems = length Examples.binary64_weights /\
  gt (nsum Examples.binary64_weights) (of_int 0) = true /\
  gt Examples.binary64_scale (of_int 0) = true /\
  exists p q,
    calculate_portfolio_performance Examples.two_systems Examples.binary64_weights = Ok p /\
    calculate_portfolio_performance Examples.two_systems Examples.binary64_scaled_weights = Ok q /\
    PrimFloat.eqb (expected_pnl p) (expected_pnl q) = false /\
    p <> q.
Proof.
  split; [reflexivity|]. split; [vm_compute; reflexivity|].
  split; [vm_compute; reflexivity|].
  eexists. eexists. split; [vm_compute; reflexivity|].
  split; [vm_compute; reflexivity|].
  split; [vm_compute; reflexivity|].
  intros Heq. apply (f_equal expected_pnl) in Heq. revert Heq.
  apply binary64_distinct; vm_compute; reflexivity.
Qed.

(** C10, as the code has it.  In exact arithmetic, for every list of
    systems, every weight vector of the same length with a positive sum and
    every positive factor, the routine returns the same record for the
    scaled weights as for the weights themselves. *)
Theorem portfolio_is_scale_invariant_in_exact_arithmetic
  (systems : list (AiSystem R)) (weights : list R) (c : R) :
  length systems = length weights -> 0 < sum weights -> 0 < c ->
  exists p,
    calculate_portfolio_performance systems weights = Ok p /\
    calculate_portfolio_performance systems (map (Rmult c) weights) = Ok p.
Proof.
  intros _ Hs Hc. eexists. split.
  - apply portfolio_spec. right. lra.
  - rewrite portfolio_spec.
    + rewrite scaled_quotients by lra. reflexivity.
    + right. rewrite sum_map_Rmult. nra.
Qed.

Lemma equal_weights_sum : sum Examples.equal_weights = 1.
Proof.
  unfold Examples.equal_weights. rewrite !sum_cons, sum_nil. lra.
Qed.

Lemma portfolio_is_scale_invariant_in_exact_arithmetic_example :
  length (@ai_systems R _) = length Examples.equal_weights /\
  0 < sum Examples.equal_weights /\
  0 < 3 /\
  exists p,
    calculate_portfolio_performance ai_systems Examples.equal_weights = Ok p /\
    calculate_portfolio_performance
      ai_systems (map (Rmult 3) Examples.equal_weights) = Ok p.
Proof.
  assert (Hs : 0 < sum Examples.equal_weights) by (rewrite equal_weights_sum; lra).
  assert (Hc : 0 < 3) by lra.
  split; [reflexivity|]. split; [exact Hs|]. split; [exact Hc|].
  exact (portfolio_is_scale_invariant_in_exact_arithmetic
           ai_systems Examples.equal_weights 3 eq_refl Hs Hc).
Defined.

End PortfolioTheorems.

(* ================================================================== *)
(** ** Facts about the numpy fragment and mathematical_proof_validation.py *)

Module ValidationFacts.
Import Py PyFacts Validation.

Lemma np_fold_fin (xs : list R) (a : R) :
  fold_left Np.add (map Np.Fin xs) (Np.Fin a) = Np.Fin (fold_left Rplus xs a).
Proof.
  revert a; induction xs as [|x xs IH]; intros a; simpl.
  - reflexivity.
  - apply IH.
Qed.

(** The sum of finite numbers is finite. *)
Lemma np_sum_fin (xs : list R) : Np.sum (map Np.Fin xs) = Np.Fin (sum xs).
Proof. apply np_fold_fin. Qed.

Lemma np_div_fin (x y : R) :
  y <> 0 -> Np.div (Np.Fin x) (Np.Fin y) = Np.Fin (x / y).
Proof.
  intros Hy. cbn [Np.div]. destruct (Req_dec_T y 0); [contradiction|reflexivity].
Qed.

Lemma np_mean_nil : Np.mean [] = Np.NaN.
Proof.
  unfold Np.mean, Np.sum. cbn [fold_left length INR Np.div].
  destruct (Req_dec_T 0 0); [|congruence].
  unfold Np.signed_inf. destruct (Rgt_dec 0 0); [lra|].
  destruct (Rlt_dec 0 0); [lra|reflexivity].
Qed.

Lemma np_mean_fin (xs : list R) :
  xs <> [] -> Np.mean (map Np.Fin xs) = Np.Fin (Spec.mean xs).
Proof.
  intros Hne. unfold Np.mean, Spec.mean. rewrite np_sum_fin, length_map.
  apply np_div_fin. pose proof (len_pos xs Hne) as Hl. unfold len in Hl. lra.
Qed.

Lemma spec_mean_nonneg (xs : list R) :
  Forall (fun x => 0 <= x) xs -> 0 <= Spec.mean xs.
Proof.
  intros Hall. unfold Spec.mean. destruct xs as [|x xs].
  - rewrite sum_nil. unfold Rdiv. lra.
  - apply Rmult_le_pos; [apply sum_nonneg; exact Hall|].
    left. apply Rinv_0_lt_compat. apply lt_0_INR. simpl. lia.
Qed.

Lemma np_std_nil : Np.std [] = Np.NaN.
Proof.
  unfold Np.std. cbn [map]. rewrite np_mean_nil. reflexivity.
Qed.

Lemma np_std_fin (xs : list R) :
  xs <> [] -> Np.std (map Np.Fin xs) = Np.Fin (Spec.std xs).
Proof.
  intros Hne. unfold Np.std, Spec.std.
  rewrite (np_mean_fin xs Hne), map_map.
  cbn [Np.sub Np.neg Np.add Np.square Np.mul].
  rewrite <- (map_map (fun x => (x + - Spec.mean xs) * (x + - Spec.mean xs)) Np.Fin).
  rewrite np_mean_fin by (destruct xs; [congruence|discriminate]).
  cbn [Np.sqrt].
  destruct (Rlt_dec _ 0) as [Hneg|_]; [|reflexivity].
  exfalso. apply (Rlt_not_le _ _ Hneg). apply spec_mean_nonneg.
  apply Forall_forall. intros y Hy. apply in_map_iff in Hy as [x [<- _]].
  cbv beta. apply Rle_0_sqr.
Qed.

Lemma spec_std_nonneg (xs : list R) : 0 <= Spec.std xs.
Proof. apply sqrt_pos. Qed.

(** The ratio of lines 119-121 on a series that is not empty. *)
Lemma sharpe_fin (pnl : list R) :
  pnl <> [] ->
  sharpe pnl =
  if Rgt_dec (Spec.std pnl) 0
  then Np.Fin (Spec.mean pnl / Spec.std pnl) else Np.Fin 0.
Proof.
  intros Hne. unfold sharpe.
  rewrite (np_std_fin pnl Hne), (np_mean_fin pnl Hne). cbn [Np.gtb].
  destruct (Rgt_dec (Spec.std pnl) 0) as [Hpos|Hnpos]; [|reflexivity].
  apply np_div_fin. lra.
Qed.

Lemma sharpe_nil : sharpe [] = Np.Fin 0.
Proof.
  unfold sharpe. cbn [map]. rewrite np_std_nil. reflexivity.
Qed.

(** The fields of the record that [compute_performance_metrics] returns
    are the statistics of the simulated series. *)
Lemma metrics_of_pnl (predictions : list (Features Np.npfloat))
  (actual_outcomes : list Outcome) (mt : Metrics) :
  compute_performance_metrics predictions actual_outcomes = Ok mt ->
  exists pnl,
    simulated_pnl predictions actual_outcomes = Ok pnl /\
    mean_pnl mt = Np.mean (map Np.Fin pnl) /\
    std_pnl mt = Np.std (map Np.Fin pnl) /\
    sharpe_ratio mt = sharpe pnl.
Proof.
  unfold compute_performance_metrics.
  destruct (Np.broadcast _ _) as [hits|e]; [|discriminate]. cbn [bind].
  destruct (Np.broadcast _ _) as [errs|e]; [|discriminate]. cbn [bind].
  destruct (simulated_pnl predictions actual_outcomes) as [pnl|e]; [|discriminate].
  cbn [bind ret]. intros [= <-]. exists pnl. repeat split; reflexivity.
Qed.

(** With a positive sum the division of line 78 is the exact one. *)
Lemma validation_normalize_fin (weights : list R) :
  sum weights <> 0 ->
  normalize_weights weights =
  map Np.Fin (map (fun w => w / sum weights) weights).
Proof.
  intros Hs. unfold normalize_weights. rewrite np_sum_fin, map_map.
  apply map_ext. intros w. apply np_div_fin. exact Hs.
Qed.

End ValidationFacts.

(* ================================================================== *)
(** ** Normalization, guards and the profit-and-loss model *)

Module StatisticsTheorems.
Import Py PyFacts.

Lemma log2_five_eighths : ln (5 / 8) / ln 2 < - (16 / 25).
Proof.
  assert (H2 : 0 < ln 2) by (pose proof ln_lt_2; lra).
  assert (H5 : 25 * ln 5 < 59 * ln 2).
  { replace 25 with (INR 25) by (rewrite INR_IZR_INZ; reflexivity).
    replace 59 with (INR 59) by (rewrite INR_IZR_INZ; reflexivity).
    rewrite <- !ln_pow by lra. apply ln_increasing.
    - apply pow_lt. lra.
    - rewrite !pow_IZR. apply IZR_lt. reflexivity. }
  assert (H8 : ln (5 / 8) = ln 5 - 3 * ln 2).
  { unfold Rdiv. rewrite ln_mult by lra. rewrite ln_Rinv by lra.
    replace 8 with (2 ^ 3) by lra. rewrite ln_pow by lra.
    replace (INR 3) with 3 by (rewrite INR_IZR_INZ; reflexivity). lra. }
  rewrite H8. apply (Rmult_lt_reg_r (ln 2)); [exact H2|].
  unfold Rdiv. rewrite Rmult_assoc, Rinv_l by lra. lra.
Qed.

Lemma full_advanced_normalized_sum :
  sum (Spec.normalized Examples.full_advanced_weights) = 1.
Proof. apply AdvancedFacts.normalized_sum. discriminate. Qed.

(** Identical signals are fused to their common values, whatever the
    weights. *)
Lemma sum_combine_repeat (s : Advanced.Signal) (g : Advanced.Signal -> R)
  (n : nat) (nw : list R) :
  length nw = n ->
  sum (map (fun '(s', w) => g s' * w) (combine (repeat s n) nw)) =
  g s * sum nw.
Proof.
  intros <-. induction nw as [|w nw IH].
  - simpl. rewrite sum_nil. lra.
  - cbn [length repeat combine map]. rewrite !sum_cons, IH. lra.
Qed.

Lemma full_advanced_normalized_length :
  length (Spec.normalized Examples.full_advanced_weights) = 5%nat.
Proof. rewrite AdvancedFacts.normalized_length. reflexivity. Qed.

Lemma full_advanced_shannon : Spec.shannon Examples.full_advanced_signals > 2.
Proof.
  unfold Spec.shannon, Examples.full_advanced_signals.
  cbn [repeat map Advanced.confidence filter].
  destruct (Rgt_dec (5 / 8) 0) as [_|Hn]; [|lra].
  cbn [map]. rewrite !sum_cons, sum_nil.
  rewrite Rmax_right by lra.
  pose proof log2_five_eighths. lra.
Qed.

(** C5.  In [compute_performance_metrics] the profit of a trade is the
    actual magnitude times the position size, with the sign of the match,
    less the commission.  In [prove_additive_value] it is the fused
    magnitude that is multiplied: at the "Full Advanced" state below the
    fused direction matches the actual one, the actual magnitude is [0.03],
    and the trade is booked at [0.0125 * 60 - 0.25 = 0.5] instead of
    [0.03 * 60 - 0.25 = 1.55]. *)
Theorem trade_profit_reads_the_fused_magnitude :
  (forall prediction actual,
      Spec.direction_matches prediction actual ->
      Validation.trade_pnl prediction actual =
      Validation.actual_magnitude actual * Spec.position_size - Spec.commission) /\
  (forall prediction actual,
      ~ Spec.direction_matches prediction actual ->
      Validation.trade_pnl prediction actual =
      - Validation.actual_magnitude actual * Spec.position_size - Spec.commission) /\
  exists f,
    Advanced.mathematical_tensor_fusion
      Examples.full_advanced_signals Examples.full_advanced_weights = Ok f /\
    Advanced.fused_direction f = 1%Z /\
    Advanced.fused_magnitude f = 125 / 10000 /\
    Advanced.combination_step f 1 (3 / 100) (Advanced.mkTally 0 0) =
      Advanced.mkTally (Advanced.trade_profit f 1 (3 / 100)) 1 /\
    Advanced.trade_profit f 1 (3 / 100) = 1 / 2 /\
    Advanced.trade_profit f 1 (3 / 100) <>
      3 / 100 * Spec.position_size - Spec.commission.
Proof.
  split; [|split].
  - intros p a Hm. unfold Validation.trade_pnl. unfold Spec.direction_matches in Hm.
    rewrite Hm. unfold Spec.position_size, Spec.commission. lra.
  - intros p a Hm. unfold Validation.trade_pnl. unfold Spec.direction_matches in Hm.
    destruct (Np.eqb _ _); [congruence|].
    unfold Spec.position_size, Spec.commission. lra.
  - eexists. split; [apply AdvancedFacts.fusion_spec; [discriminate|reflexivity]|].
    assert (Hc : Spec.weighted_confidence Examples.full_advanced_signals
                   (Spec.normalized Examples.full_advanced_weights) = 5 / 8).
    { unfold Spec.weighted_confidence, Examples.full_advanced_signals.
      rewrite (sum_combine_repeat _ Advanced.confidence 5
                 (Spec.normalized Examples.full_advanced_weights)
                 full_advanced_normalized_length),
        full_advanced_normalized_sum.
      cbn [Advanced.confidence]. lra. }
    assert (Hd : Spec.weighted_direction_sum Examples.full_advanced_signals
                   (Spec.normalized Examples.full_advanced_weights) = 5 / 8).
    { unfold Spec.weighted_direction_sum, Examples.full_advanced_signals.
      rewrite (sum_combine_repeat _
                 (fun s => IZR (Advanced.direction s) * Advanced.confidence s) 5
                 (Spec.normalized Examples.full_advanced_weights)
                 full_advanced_normalized_length),
        full_advanced_normalized_sum.
      cbn [Advanced.confidence Advanced.direction]. lra. }
    assert (Hm : sum (map (fun '(s, w) =>
                             Advanced.magnitude s * Advanced.confidence s * w)
                          (combine Examples.full_advanced_signals
                             (Spec.normalized Examples.full_advanced_weights))) =
                 125 / 10000).
    { unfold Examples.full_advanced_signals.
      rewrite (sum_combine_repeat _
                 (fun s => Advanced.magnitude s * Advanced.confidence s) 5
                 (Spec.normalized Examples.full_advanced_weights)
                 full_advanced_normalized_length),
        full_advanced_normalized_sum.
      cbn [Advanced.confidence Advanced.magnitude]. lra. }
    assert (Hdir : Advanced.fused_direction
                     (Spec.fusion_value Examples.full_advanced_signals
                        Examples.full_advanced_weights) = 1%Z).
    { cbn [Spec.fusion_value Advanced.fused_direction]. rewrite Hd.
      destruct (Rgt_dec (5 / 8) 0); [reflexivity|lra]. }
    assert (Hp : Advanced.trade_profit
                   (Spec.fusion_value Examples.full_advanced_signals
                      Examples.full_advanced_weights) 1 (3 / 100) = 1 / 2).
    { unfold Advanced.trade_profit. rewrite Hdir. cbn [Z.eqb Pos.eqb].
      cbn [Spec.fusion_value Advanced.fused_magnitude]. rewrite Hm.
      unfold Advanced.commission_per_trade. lra. }
    split; [exact Hdir|]. split; [exact Hm|]. split; [|split].
    + unfold Advanced.combination_step. rewrite Hdir. cbn [Z.eqb Pos.eqb].
      cbn [Spec.fusion_value Advanced.fused_confidence Advanced.information_content].
      rewrite Hc.
      destruct (Rgt_dec (5 / 8) (6 / 10)) as [_|Hn]; [|lra].
      destruct (Rgt_dec (Spec.shannon Examples.full_advanced_signals) 2) as [_|Hn];
        [|pose proof full_advanced_shannon; lra].
      cbn [andb Advanced.total_profit Advanced.correct_predictions Nat.add].
      f_equal. lra.
    + exact Hp.
    + rewrite Hp. unfold Spec.position_size, Spec.commission. lra.
Qed.

(** C4.  On five weights that are all zero the fusion of
    [advanced_tensor_mathematical_proof.py] falls back to the uniform
    weights [1/5]; [calculate_portfolio_performance] raises a
    [ZeroDivisionError] instead, in exact arithmetic and in binary64 alike;
    the division of [tensor_fusion] yields NaN entries; and on an empty
    weight list the first routine raises as well. *)
Theorem zero_weight_sum_is_guarded_in_one_routine :
  Advanced.normalize_weights Examples.zero_weights = Ok (repeat (1 / 5) 5) /\
  length (@Simple.ai_systems R _) = length Examples.zero_weights /\
  Simple.calculate_portfolio_performance Simple.ai_systems Examples.zero_weights =
    Raise ZeroDivisionError /\
  Simple.calculate_portfolio_performance
    Simple.ai_systems Examples.binary64_zero_weights = Raise ZeroDivisionError /\
  Validation.normalize_weights Examples.zero_weights = repeat Np.NaN 5 /\
  Advanced.normalize_weights [] = Raise ZeroDivisionError.
Proof.
  assert (Hz : sum Examples.zero_weights = 0).
  { unfold Examples.zero_weights. rewrite !sum_cons, sum_nil. lra. }
  split; [|split; [reflexivity|split; [|split; [|split]]]].
  - rewrite AdvancedFacts.normalize_weights_spec by discriminate.
    unfold Spec.normalized. rewrite Hz.
    destruct (Rgt_dec 0 0) as [H|_]; [lra|].
    unfold Examples.zero_weights. cbn [length]. do 2 f_equal.
    rewrite INR_IZR_INZ. reflexivity.
  - apply PortfolioTheorems.portfolio_zero_sum; [discriminate|exact Hz].
  - vm_compute. reflexivity.
  - unfold Validation.normalize_weights.
    rewrite ValidationFacts.np_sum_fin, Hz. unfold Examples.zero_weights.
    cbn [map repeat Np.div]. destruct (Req_dec_T 0 0) as [_|H]; [|congruence].
    unfold Np.signed_inf. destruct (Rgt_dec 0 0); [lra|].
    destruct (Rlt_dec 0 0); [lra|reflexivity].
  - apply AdvancedFacts.normalize_weights_nil.
Qed.

(** Over the reals the normalization written over the interface is the
    normalization of module [Advanced]. *)
Lemma normalize_weights_over_reals (weights : list R) :
  AdvancedNumber.normalize_weights weights = Advanced.normalize_weights weights.
Proof.
  unfold AdvancedNumber.normalize_weights, Advanced.normalize_weights.
  rewrite PortfolioTheorems.nsum_R. cbn [gt of_int Number_R].
  destruct (Rgt_dec (sum weights) 0) as [Hs|Hs].
  - clear Hs. generalize (sum weights). intros t.
    induction weights as [|x xs IH]; [reflexivity|].
    cbn [mapM]. rewrite PortfolioTheorems.ndiv_R, IH. reflexivity.
  - rewrite PortfolioTheorems.ndiv_R. unfold len.
    rewrite INR_IZR_INZ. reflexivity.
Qed.

(** C6, in binary64.  The weights [0.6] and [0.4] and the same weights
    multiplied by [3] are not normalized to the same vector: the second
    entries differ.  And the weights [2.0**1023] and [2.0**1023], each of
    them positive and finite, have the sum infinity: both are normalized to
    zero, and the normalized weights add up to zero, not to one. *)
Lemma binary64_normalization_depends_on_the_scale :
  (gt Examples.binary64_scale (of_int 0) = true /\
   exists nw nw',
     AdvancedNumber.normalize_weights Examples.binary64_weights = Ok nw /\
     AdvancedNumber.normalize_weights Examples.binary64_scaled_weights = Ok nw' /\
     PrimFloat.eqb (nth 1 nw PrimFloat.zero) (nth 1 nw' PrimFloat.zero) = false /\
     nw <> nw') /\
  (Forall (fun w => gt w (of_int 0) = true /\
                    PrimFloat.ltb w PrimFloat.infinity = true)
          Examples.huge_weights /\
   AdvancedNumber.normalize_weights Examples.huge_weights =
     Ok [PrimFloat.zero; PrimFloat.zero] /\
   PrimFloat.eqb (nsum [PrimFloat.zero; PrimFloat.zero]) (of_int 0) = true /\
   PrimFloat.eqb (nsum [PrimFloat.zero; PrimFloat.zero]) (of_int 1) = false).
Proof.
  split.
  - split; [vm_compute; reflexivity|].
    eexists. eexists. split; [vm_compute; reflexivity|].
    split; [vm_compute; reflexivity|].
    split; [vm_compute; reflexivity|].
    intros Heq. apply (f_equal (fun l => nth 1 l PrimFloat.zero)) in Heq.
    revert Heq. apply PortfolioTheorems.binary64_distinct; vm_compute; reflexivity.
  - split.
    + apply Forall_cons; [split; vm_compute; reflexivity|].
      apply Forall_cons; [split; vm_compute; reflexivity|]. apply Forall_nil.
    + split; [vm_compute; reflexivity|].
      split; vm_compute; reflexivity.
Qed.

(** C6, as the code has it.  In exact arithmetic, for every weight vector
    with non-negative entries, one of them not zero, and every positive
    scale factor, the fusion of [advanced_tensor_mathematical_proof.py] and
    [tensor_fusion] normalize the weights and the scaled weights to one and
    the same vector, and its entries add up to one. *)
Theorem normalized_weights_sum_to_one (weights : list R) (c : R) :
  Forall (fun w => 0 <= w) weights -> Exists (fun w => w <> 0) weights ->
  0 < c ->
  exists nw,
    Advanced.normalize_weights weights = Ok nw /\
    Advanced.normalize_weights (map (Rmult c) weights) = Ok nw /\
    Validation.normalize_weights weights = map Np.Fin nw /\
    Validation.normalize_weights (map (Rmult c) weights) = map Np.Fin nw /\
    sum nw = 1.
Proof.
  intros Hall Hex Hc.
  pose proof (sum_pos weights Hall Hex) as Hs.
  assert (Hne : weights <> []) by (destruct Hex; discriminate).
  assert (Hne' : map (Rmult c) weights <> [])
    by (destruct weights; [congruence|discriminate]).
  assert (Hn : Spec.normalized weights = map (fun w => w / sum weights) weights).
  { unfold Spec.normalized. destruct (Rgt_dec (sum weights) 0); [reflexivity|lra]. }
  exists (Spec.normalized weights). repeat split.
  - apply AdvancedFacts.normalize_weights_spec. exact Hne.
  - rewrite AdvancedFacts.normalize_weights_spec by exact Hne'.
    rewrite AdvancedFacts.normalized_scale by exact Hc. reflexivity.
  - rewrite Hn. apply ValidationFacts.validation_normalize_fin. lra.
  - rewrite Hn, ValidationFacts.validation_normalize_fin.
    + rewrite scaled_quotients by lra. reflexivity.
    + rewrite sum_map_Rmult. nra.
  - apply AdvancedFacts.normalized_sum. exact Hne.
Qed.

Lemma normalized_weights_sum_to_one_example :
  Forall (fun w => 0 <= w) Examples.example_weights /\
  Exists (fun w => w <> 0) Examples.example_weights /\
  0 < 3 /\
  exists nw,
    Advanced.normalize_weights Examples.example_weights = Ok nw /\
    Advanced.normalize_weights (map (Rmult 3) Examples.example_weights) = Ok nw /\
    Validation.normalize_weights Examples.example_weights = map Np.Fin nw /\
    Validation.normalize_weights (map (Rmult 3) Examples.example_weights) =
      map Np.Fin nw /\
    sum nw = 1.
Proof.
  assert (Hall : Forall (fun w => 0 <= w) Examples.example_weights).
  { unfold Examples.example_weights.
    apply Forall_cons; [lra|]. apply Forall_cons; [lra|]. apply Forall_nil. }
  assert (Hex : Exists (fun w => w <> 0) Examples.example_weights).
  { unfold Examples.example_weights. apply Exists_cons_hd. lra. }
  assert (Hc : 0 < 3) by lra.
  split; [exact Hall|]. split; [exact Hex|]. split; [exact Hc|].
  exact (normalized_weights_sum_to_one Examples.example_weights 3 Hall Hex Hc).
Defined.

Example sharpe_of_two_profits : Validation.sharpe Examples.two_profits = Np.Fin 1.
Proof.
  rewrite ValidationFacts.sharpe_fin by discriminate.
  assert (Hm : Spec.mean Examples.two_profits = 1).
  { unfold Spec.mean, Examples.two_profits. rewrite !sum_cons, sum_nil.
    cbn [length INR]. lra. }
  assert (Hs : Spec.std Examples.two_profits = 1).
  { unfold Spec.std. rewrite Hm. unfold Spec.mean, Examples.two_profits.
    cbn [map length INR]. rewrite !sum_cons, sum_nil.
    match goal with |- sqrt ?e = _ => replace e with 1 by lra end.
    apply sqrt_1. }
  rewrite Hs, Hm. destruct (Rgt_dec 1 0); [|lra]. f_equal. lra.
Qed.

Example sharpe_of_flat_profits : Validation.sharpe Examples.flat_profits = Np.Fin 0.
Proof.
  rewrite ValidationFacts.sharpe_fin by discriminate.
  assert (Hm : Spec.mean Examples.flat_profits = 5).
  { unfold Spec.mean, Examples.flat_profits. rewrite !sum_cons, sum_nil.
    cbn [length INR]. lra. }
  assert (Hs : Spec.std Examples.flat_profits = 0).
  { unfold Spec.std. rewrite Hm. unfold Spec.mean, Examples.flat_profits.
    cbn [map length INR]. rewrite !sum_cons, sum_nil.
    match goal with |- sqrt ?e = _ => replace e with 0 by lra end.
    apply sqrt_0. }
  rewrite Hs. destruct (Rgt_dec 0 0); [lra|reflexivity].
Qed.

(** The two branches of the ratio, for a series and its statistics. *)
Lemma sharpe_cases (pnl : list R) :
  (forall s, Np.std (map Np.Fin pnl) = Np.Fin s -> s > 0 ->
             exists m, Np.mean (map Np.Fin pnl) = Np.Fin m /\
                       Validation.sharpe pnl = Np.Fin (m / s)) /\
  (Np.std (map Np.Fin pnl) = Np.Fin 0 -> Validation.sharpe pnl = Np.Fin 0).
Proof.
  destruct pnl as [|x pnl].
  - split.
    + intros s Hs. cbn [map] in Hs. rewrite ValidationFacts.np_std_nil in Hs.
      discriminate.
    + intros _. apply ValidationFacts.sharpe_nil.
  - assert (Hne : x :: pnl <> []) by discriminate.
    rewrite (ValidationFacts.np_std_fin _ Hne), (ValidationFacts.np_mean_fin _ Hne),
      (ValidationFacts.sharpe_fin _ Hne).
    split.
    + intros s [= Hs] Hpos. exists (Spec.mean (x :: pnl)). split; [reflexivity|].
      rewrite Hs. destruct (Rgt_dec s 0); [reflexivity|lra].
    + intros [= Hs]. rewrite Hs. destruct (Rgt_dec 0 0); [lra|reflexivity].
Qed.

(** C7.  For every P&L series the ratio is the mean over the standard
    deviation when the standard deviation is positive and zero when it is
    zero, for the series itself and in the record that
    [compute_performance_metrics] returns; on a series that is not empty
    the standard deviation is one or the other.  The risk-adjusted ratio of
    [calculate_portfolio_performance] is the expected P&L over the
    volatility when the volatility is positive and zero when it is zero,
    and the routine returns whenever the weights do not add up to zero. *)
Theorem ratios_fall_back_to_zero :
  (forall pnl,
      (forall s, Np.std (map Np.Fin pnl) = Np.Fin s -> s > 0 ->
                 exists m, Np.mean (map Np.Fin pnl) = Np.Fin m /\
                           Validation.sharpe pnl = Np.Fin (m / s)) /\
      (Np.std (map Np.Fin pnl) = Np.Fin 0 ->
       Validation.sharpe pnl = Np.Fin 0) /\
      (pnl <> [] ->
       exists s, Np.std (map Np.Fin pnl) = Np.Fin s /\ 0 <= s)) /\
  (forall predictions actual_outcomes mt,
      Validation.compute_performance_metrics predictions actual_outcomes = Ok mt ->
      (forall s, Validation.std_pnl mt = Np.Fin s -> s > 0 ->
                 exists m, Validation.mean_pnl mt = Np.Fin m /\
                           Validation.sharpe_ratio mt = Np.Fin (m / s)) /\
      (Validation.std_pnl mt = Np.Fin 0 ->
       Validation.sharpe_ratio mt = Np.Fin 0)) /\
  (forall (systems : list (Simple.AiSystem R)) weights p,
      Simple.calculate_portfolio_performance systems weights = Ok p ->
      (Simple.portfolio_magnitude p * 60 * (5 / 10) > 0 ->
       Simple.risk_adjusted p =
       Simple.expected_pnl p / (Simple.portfolio_magnitude p * 60 * (5 / 10))) /\
      (Simple.portfolio_magnitude p * 60 * (5 / 10) = 0 ->
       Simple.risk_adjusted p = 0)) /\
  (forall (systems : list (Simple.AiSystem R)) weights,
      sum weights <> 0 ->
      exists p, Simple.calculate_portfolio_performance systems weights = Ok p).
Proof.
  split; [|split; [|split]].
  - intros pnl. destruct (sharpe_cases pnl) as [Hpos Hzero].
    split; [exact Hpos|]. split; [exact Hzero|].
    intros Hne. exists (Spec.std pnl).
    split; [apply ValidationFacts.np_std_fin; exact Hne|apply ValidationFacts.spec_std_nonneg].
  - intros predictions actual_outcomes mt Hmt.
    destruct (ValidationFacts.metrics_of_pnl _ _ _ Hmt) as [pnl [_ [Hm [Hs Hr]]]].
    rewrite Hm, Hs, Hr. apply sharpe_cases.
  - intros systems weights p Hp.
    rewrite (PortfolioTheorems.portfolio_returns_spec _ _ _ Hp).
    cbn [Spec.portfolio_of Simple.portfolio_magnitude Simple.risk_adjusted
           Simple.expected_pnl].
    destruct (Rgt_dec _ 0) as [Hpos|Hnpos]; split; intros; try reflexivity; lra.
  - intros systems weights Hs. eexists.
    apply PortfolioTheorems.portfolio_spec. right. exact Hs.
Qed.

End StatisticsTheorems.

(* ================================================================== *)
(** ** Further properties of the signal fusion *)

Module FusionExtras.
Import Py PyFacts Advanced AdvancedFacts.

Lemma normalize_weights_scale (c : R) (weights : list R) :
  0 < c -> normalize_weights (map (Rmult c) weights) = normalize_weights weights.
Proof.
  intros Hc. destruct weights as [|w weights]; [reflexivity|].
  rewrite !normalize_weights_spec by discriminate.
  rewrite normalized_scale by exact Hc. reflexivity.
Qed.

(** The fusion reads its weights through [normalize_weights] and their
    length only. *)
Lemma fusion_depends_on_normalized (signals : list Signal) (ws ws' : list R) :
  length ws = length ws' -> normalize_weights ws = normalize_weights ws' ->
  mathematical_tensor_fusion signals ws = mathematical_tensor_fusion signals ws'.
Proof.
  intros Hlen Hn. unfold mathematical_tensor_fusion. rewrite Hlen, Hn. reflexivity.
Qed.

(** X1.  Scaling every weight by the same positive factor changes nothing in
    what the fusion returns or raises. *)
Theorem fusion_is_scale_invariant
  (signals : list Signal) (weights : list R) (c : R) :
  0 < c ->
  mathematical_tensor_fusion signals (map (Rmult c) weights) =
  mathematical_tensor_fusion signals weights.
Proof.
  intros Hc. apply fusion_depends_on_normalized.
  - apply length_map.
  - apply normalize_weights_scale. exact Hc.
Qed.

Lemma fusion_is_scale_invariant_example :
  0 < 10 /\
  mathematical_tensor_fusion Examples.example_signals
    (map (Rmult 10) Examples.example_weights) =
  mathematical_tensor_fusion Examples.example_signals Examples.example_weights.
Proof.
  assert (Hc : 0 < 10) by lra.
  split; [exact Hc|].
  exact (fusion_is_scale_invariant
           Examples.example_signals Examples.example_weights 10 Hc).
Defined.

Lemma normalized_of_ones (n : nat) :
  n <> 0%nat -> Spec.normalized (repeat 1 n) = repeat (1 / INR n) n.
Proof.
  intros Hn. unfold Spec.normalized. rewrite sum_repeat, repeat_length.
  assert (Hpos : 0 < INR n) by (apply lt_0_INR; lia).
  destruct (Rgt_dec (INR n * 1) 0) as [_|Hneg]; [|lra].
  rewrite map_repeat. f_equal. field. lra.
Qed.

Lemma normalize_weights_nonpositive (weights : list R) :
  sum weights <= 0 ->
  normalize_weights weights = normalize_weights (repeat 1 (length weights)).
Proof.
  intros Hs. destruct weights as [|w weights]; [reflexivity|].
  rewrite !normalize_weights_spec by discriminate.
  rewrite normalized_of_ones by discriminate.
  unfold Spec.normalized.
  destruct (Rgt_dec (sum (w :: weights)) 0) as [Hpos|_]; [lra|reflexivity].
Qed.

(** X2.  Weights whose sum is zero or negative are not used at all: the fusion
    behaves as it does on equal weights. *)
Theorem fusion_ignores_weights_without_positive_sum
  (signals : list Signal) (weights : list R) :
  sum weights <= 0 ->
  mathematical_tensor_fusion signals weights =
  mathematical_tensor_fusion signals (repeat 1 (length weights)).
Proof.
  intros Hs. apply fusion_depends_on_normalized.
  - symmetry. apply repeat_length.
  - apply normalize_weights_nonpositive. exact Hs.
Qed.

Lemma fusion_ignores_weights_without_positive_sum_example :
  sum [1; -3] <= 0 /\
  mathematical_tensor_fusion Examples.example_signals [1; -3] =
  mathematical_tensor_fusion Examples.example_signals (repeat 1 (length [1; -3])).
Proof.
  assert (Hs : sum [1; -3] <= 0) by (rewrite !sum_cons, sum_nil; lra).
  split; [exact Hs|].
  exact (fusion_ignores_weights_without_positive_sum
           Examples.example_signals [1; -3] Hs).
Defined.

(** A weighted sum over identical signals. *)
Lemma sum_over_identical (s : Signal) (g : Signal -> R) (n : nat) (nw : list R) :
  length nw = n ->
  sum (map (fun '(s', w) => g s' * w) (combine (repeat s n) nw)) = g s * sum nw.
Proof.
  intros <-. induction nw as [|w nw IH].
  - simpl. rewrite sum_nil. lra.
  - cbn [length repeat combine map]. rewrite !sum_cons, IH. lra.
Qed.

Lemma in_repeat_eq {A : Type} (x y : A) (n : nat) : In y (repeat x n) -> y = x.
Proof.
  intros Hin. exact (repeat_spec n x y Hin).
Qed.

(** X3.  In exact arithmetic, when all the signals are one and the same, the
    weights do not matter: the fusion returns the confidence of the signal,
    its magnitude times its confidence, full coherence, and the direction
    that the sign of direction times confidence gives.  (Rounding, and a
    weight sum that overflows in binary64, are outside this statement.) *)
Theorem fusion_of_identical_signals
  (s : Signal) (n : nat) (weights : list R) :
  n <> 0%nat -> length weights = n ->
  exists f,
    mathematical_tensor_fusion (repeat s n) weights = Ok f /\
    fused_confidence f = confidence s /\
    fused_magnitude f = magnitude s * confidence s /\
    coherence f = 1 /\
    fused_direction f =
      (if Rgt_dec (IZR (direction s) * confidence s) 0 then 1%Z else (-1)%Z).
Proof.
  intros Hn Hlen.
  assert (Hne : repeat s n <> []) by (destruct n; [congruence|discriminate]).
  assert (Hw : weights <> []) by (destruct weights; [simpl in Hlen; congruence|discriminate]).
  assert (Hnl : length (Spec.normalized weights) = n)
    by (rewrite normalized_length; exact Hlen).
  eexists. split.
  - apply fusion_spec; [exact Hne|]. rewrite repeat_length. symmetry. exact Hlen.
  - cbn [Spec.fusion_value fused_confidence fused_magnitude coherence fused_direction].
    unfold Spec.weighted_confidence, Spec.weighted_direction_sum.
    rewrite (sum_over_identical s confidence n _ Hnl).
    rewrite (sum_over_identical s (fun s' => magnitude s' * confidence s') n _ Hnl).
    rewrite (sum_over_identical s (fun s' => IZR (direction s') * confidence s') n _ Hnl).
    rewrite (normalized_sum weights Hw), !Rmult_1_r.
    repeat split.
    rewrite (FusionTheorems.population_variance_constant (direction s)).
    + rewrite sqrt_0. rewrite Rmax_right; lra.
    + destruct n; [congruence|discriminate].
    + intros d Hd. apply in_map_iff in Hd as [s' [<- Hin]].
      f_equal. exact (in_repeat_eq _ _ _ Hin).
Qed.

Lemma fusion_of_identical_signals_example :
  3%nat <> 0%nat /\ length [5; 1; 2] = 3%nat /\
  exists f,
    mathematical_tensor_fusion (repeat Examples.half_confident 3) [5; 1; 2] = Ok f /\
    fused_confidence f = confidence Examples.half_confident /\
    fused_magnitude f =
      magnitude Examples.half_confident * confidence Examples.half_confident /\
    coherence f = 1 /\
    fused_direction f =
      (if Rgt_dec (IZR (direction Examples.half_confident)
                   * confidence Examples.half_confident) 0
       then 1%Z else (-1)%Z).
Proof.
  assert (Hn : 3%nat <> 0%nat) by discriminate.
  split; [exact Hn|]. split; [reflexivity|].
  exact (fusion_of_identical_signals Examples.half_confident 3 [5; 1; 2] Hn eq_refl).
Defined.

Lemma normalized_nonneg (weights : list R) :
  Forall (fun w => 0 <= w) weights ->
  Forall (fun w => 0 <= w) (Spec.normalized weights).
Proof.
  intros Hall. unfold Spec.normalized.
  destruct (Rgt_dec (sum weights) 0) as [Hpos|Hnpos].
  - apply Forall_forall. intros y Hy. apply in_map_iff in Hy as [w [<- Hw]].
    rewrite Forall_forall in Hall. specialize (Hall w Hw).
    apply Rmult_le_pos; [exact Hall|]. left. apply Rinv_0_lt_compat. lra.
  - apply Forall_forall. intros y Hy.
    destruct weights as [|w weights]; [destruct Hy|].
    rewrite (repeat_spec _ _ _ Hy).
    assert (Hl : 0 < INR (length (w :: weights))) by (apply lt_0_INR; simpl; lia).
    apply Rmult_le_pos; [lra|]. left. apply Rinv_0_lt_compat. exact Hl.
Qed.

(** A sum with non-negative weights lies between the bounds of its terms,
    each multiplied by the total weight. *)
Lemma weighted_sum_bounds (g : Signal -> R) (lo hi : R)
  (signals : list Signal) (nw : list R) :
  Forall (fun w => 0 <= w) nw ->
  length signals = length nw ->
  (forall s, In s signals -> lo <= g s <= hi) ->
  lo * sum nw <= sum (map (fun '(s, w) => g s * w) (combine signals nw))
  <= hi * sum nw.
Proof.
  intros Hnw. revert signals.
  induction Hnw as [|w nw Hw _ IH]; intros signals Hlen Hg.
  - destruct signals; [|discriminate]. simpl. rewrite sum_nil. lra.
  - destruct signals as [|s signals]; [discriminate|].
    cbn [combine map]. rewrite !sum_cons.
    injection Hlen as Hlen.
    specialize (IH signals Hlen (fun s' Hin => Hg s' (or_intror Hin))).
    pose proof (Hg s (or_introl eq_refl)) as Hs. nra.
Qed.

(** With positive terms and non-negative weights that are not all zero the
    sum is positive. *)
Lemma weighted_sum_positive (g : Signal -> R)
  (signals : list Signal) (nw : list R) :
  Forall (fun w => 0 <= w) nw ->
  length signals = length nw ->
  (forall s, In s signals -> 0 < g s) ->
  0 <= sum (map (fun '(s, w) => g s * w) (combine signals nw)) /\
  (0 < sum nw -> 0 < sum (map (fun '(s, w) => g s * w) (combine signals nw))).
Proof.
  intros Hnw. revert signals.
  induction Hnw as [|w nw Hw _ IH]; intros signals Hlen Hg.
  - destruct signals; [|discriminate]. simpl. rewrite sum_nil. lra.
  - destruct signals as [|s signals]; [discriminate|].
    cbn [combine map]. rewrite !sum_cons.
    injection Hlen as Hlen.
    destruct (IH signals Hlen (fun s' Hin => Hg s' (or_intror Hin))) as [H0 Hp].
    pose proof (Hg s (or_introl eq_refl)) as Hs.
    split; [nra|]. intros Htot.
    destruct (Rle_lt_or_eq_dec 0 w Hw) as [Hwpos|Hw0].
    + nra.
    + subst w. assert (0 < sum nw) by lra. specialize (Hp H). nra.
Qed.

Lemma sum_map_combine_ext (g h : Signal -> R)
  (signals : list Signal) (nw : list R) :
  (forall s, In s signals -> g s = h s) ->
  sum (map (fun '(s, w) => g s * w) (combine signals nw)) =
  sum (map (fun '(s, w) => h s * w) (combine signals nw)).
Proof.
  intros Hgh. f_equal. apply map_ext_in. intros [s w] Hin.
  rewrite (Hgh s (in_combine_l _ _ _ _ Hin)). reflexivity.
Qed.

(** X4.  In exact arithmetic, with weights that are not negative the fused
    confidence lies between the smallest and the largest confidence of the
    inputs, and, for confidences between 0 and 1, the fused magnitude lies
    between 0 and the largest magnitude.  (Rounding, and a weight sum that
    overflows in binary64, are outside this statement.) *)
Theorem fused_values_stay_in_range
  (signals : list Signal) (weights : list R) (lo hi M : R) :
  signals <> [] -> length signals = length weights ->
  Forall (fun w => 0 <= w) weights ->
  0 <= lo -> hi <= 1 ->
  Forall (fun s => lo <= confidence s <= hi /\ 0 <= magnitude s <= M) signals ->
  exists f,
    mathematical_tensor_fusion signals weights = Ok f /\
    lo <= fused_confidence f <= hi /\
    0 <= fused_magnitude f <= M.
Proof.
  intros Hne Hlen Hw Hlo Hhi Hall.
  assert (Hwne : weights <> []).
  { destruct weights; [|discriminate]. destruct signals; [congruence|discriminate]. }
  pose proof (normalized_nonneg weights Hw) as Hnn.
  pose proof (normalized_sum weights Hwne) as Hsum.
  assert (Hnl : length signals = length (Spec.normalized weights))
    by (rewrite normalized_length; exact Hlen).
  rewrite Forall_forall in Hall.
  eexists. split; [apply fusion_spec; assumption|].
  cbn [Spec.fusion_value fused_confidence fused_magnitude].
  unfold Spec.weighted_confidence. split.
  - pose proof (weighted_sum_bounds confidence lo hi signals _ Hnn Hnl
                  (fun s Hin => proj1 (Hall s Hin))) as H.
    rewrite Hsum in H. lra.
  - pose proof (weighted_sum_bounds (fun s => magnitude s * confidence s) 0 M
                  signals _ Hnn Hnl) as H.
    rewrite Hsum in H.
    assert (Hb : forall s, In s signals -> 0 <= magnitude s * confidence s <= M).
    { intros s Hin. destruct (Hall s Hin) as [Hc Hm]. nra. }
    specialize (H Hb). lra.
Qed.

Lemma fused_values_stay_in_range_example :
  exists f,
    mathematical_tensor_fusion Examples.example_signals Examples.example_weights
      = Ok f /\
    4 / 10 <= fused_confidence f <= 8 / 10 /\
    0 <= fused_magnitude f <= 2 / 100.
Proof.
  apply (fused_values_stay_in_range
           Examples.example_signals Examples.example_weights
           (4 / 10) (8 / 10) (2 / 100)).
  - discriminate.
  - reflexivity.
  - unfold Examples.example_weights.
    apply Forall_cons; [lra|]. apply Forall_cons; [lra|]. apply Forall_nil.
  - lra.
  - lra.
  - unfold Examples.example_signals.
    apply Forall_cons; [cbn [confidence magnitude]; lra|].
    apply Forall_cons; [cbn [confidence magnitude]; lra|]. apply Forall_nil.
Defined.

(** X5.  In exact arithmetic, signals that all point the same way, each with
    a positive confidence, are fused to that direction by any weights that
    are not negative.  (A weight sum that overflows in binary64, which
    normalizes every weight to zero, is outside this statement.) *)
Theorem unanimous_signals_keep_their_direction
  (signals : list Signal) (weights : list R) (d : Z) :
  signals <> [] -> length signals = length weights ->
  Forall (fun w => 0 <= w) weights ->
  Spec.is_direction d ->
  Forall (fun s => direction s = d /\ 0 < confidence s) signals ->
  exists f,
    mathematical_tensor_fusion signals weights = Ok f /\
    fused_direction f = d.
Proof.
  intros Hne Hlen Hw Hd Hall.
  assert (Hwne : weights <> []).
  { destruct weights; [|discriminate]. destruct signals; [congruence|discriminate]. }
  pose proof (normalized_nonneg weights Hw) as Hnn.
  pose proof (normalized_sum weights Hwne) as Hsum.
  assert (Hnl : length signals = length (Spec.normalized weights))
    by (rewrite normalized_length; exact Hlen).
  rewrite Forall_forall in Hall.
  eexists. split; [apply fusion_spec; assumption|].
  cbn [Spec.fusion_value fused_direction]. unfold Spec.weighted_direction_sum.
  rewrite (sum_map_combine_ext
             (fun s => IZR (direction s) * confidence s)
             (fun s => IZR d * confidence s))
    by (intros s Hin; rewrite (proj1 (Hall s Hin)); reflexivity).
  destruct (weighted_sum_positive confidence signals _ Hnn Hnl
              (fun s Hin => proj2 (Hall s Hin))) as [H0 Hp].
  rewrite Hsum in Hp. specialize (Hp Rlt_0_1).
  destruct Hd as [-> | ->].
  - rewrite (sum_map_combine_ext _ confidence) by (intros; lra).
    destruct (Rgt_dec _ 0); [reflexivity|lra].
  - assert (Hneg : sum (map (fun '(s, w) => IZR (-1) * confidence s * w)
                            (combine signals (Spec.normalized weights))) =
                   - sum (map (fun '(s, w) => confidence s * w)
                              (combine signals (Spec.normalized weights)))).
    { clear. generalize (combine signals (Spec.normalized weights)).
      intros l. induction l as [|[s w] l IH]; simpl.
      - rewrite sum_nil. lra.
      - rewrite !sum_cons, IH. lra. }
    rewrite Hneg. destruct (Rgt_dec _ 0); [lra|reflexivity].
Qed.

Lemma unanimous_signals_keep_their_direction_example :
  exists f,
    mathematical_tensor_fusion Examples.full_advanced_signals
      Examples.full_advanced_weights = Ok f /\
    fused_direction f = 1%Z.
Proof.
  apply (unanimous_signals_keep_their_direction
           Examples.full_advanced_signals Examples.full_advanced_weights 1).
  - discriminate.
  - reflexivity.
  - unfold Examples.full_advanced_weights.
    repeat (apply Forall_cons; [lra|]). apply Forall_nil.
  - left. reflexivity.
  - unfold Examples.full_advanced_signals. cbn [repeat].
    repeat (apply Forall_cons; [cbn [direction confidence]; split; [reflexivity|lra]|]).
    apply Forall_nil.
Defined.


Lemma ln_le_minus_one (y : R) : 0 < y -> ln y <= y - 1.
Proof.
  intros Hy. pose proof (exp_ineq1_le (ln y)) as H.
  rewrite exp_ln in H by exact Hy. lra.
Qed.

Lemma ln_3_ge_1 : 1 <= ln 3.
Proof.
  rewrite <- (ln_exp 1). destruct (Rle_lt_or_eq_dec _ _ exp_le_3) as [Hlt|Heq].
  - left. apply ln_increasing; [apply exp_pos|exact Hlt].
  - rewrite Heq. lra.
Qed.

Lemma ln_2_ge_three_fifths : 3 / 5 <= ln 2.
Proof.
  assert (H : 3 * ln 3 < 5 * ln 2).
  { replace 3 with (INR 3) at 1 by (rewrite INR_IZR_INZ; reflexivity).
    replace 5 with (INR 5) by (rewrite INR_IZR_INZ; reflexivity).
    rewrite <- !ln_pow by lra. apply ln_increasing.
    - apply pow_lt. lra.
    - rewrite !pow_IZR. apply IZR_lt. reflexivity. }
  pose proof ln_3_ge_1. lra.
Qed.

Lemma ln_five_halves_le_1 : ln (5 / 2) <= 1.
Proof.
  assert (H : ln (5 / 2) < ln ((9 / 8) ^ 8)).
  { apply ln_increasing; [lra|].
    replace (5 / 2) with (IZR 5 / IZR 2) by reflexivity.
    apply (Rmult_lt_reg_r (2 * 8 ^ 8)); [apply Rmult_lt_0_compat; [lra|apply pow_lt; lra]|].
    replace (IZR 5 / IZR 2 * (2 * 8 ^ 8)) with (5 * 8 ^ 8) by (field).
    replace ((9 / 8) ^ 8 * (2 * 8 ^ 8)) with (2 * 9 ^ 8).
    2:{ unfold Rdiv. rewrite Rpow_mult_distr, pow_inv. field. }
    rewrite !pow_IZR, <- !mult_IZR. apply IZR_lt. reflexivity. }
  rewrite ln_pow in H by lra.
  replace (INR 8) with 8 in H by (rewrite INR_IZR_INZ; reflexivity).
  pose proof (ln_le_minus_one (9 / 8)). lra.
Qed.

(** [- c ln c <= 2/5] for every positive [c]. *)
Lemma entropy_term_bound (c : R) : 0 < c -> - (c * ln c) <= 2 / 5.
Proof.
  intros Hc.
  pose proof (ln_le_minus_one ((2 / 5) / c)) as H.
  assert (Hq : 0 < 2 / 5 / c) by (apply Rdiv_lt_0_compat; lra).
  specialize (H Hq).
  unfold Rdiv in H at 1. rewrite ln_mult in H by (try lra; apply Rinv_0_lt_compat; lra).
  rewrite ln_Rinv in H by lra.
  assert (Ha : ln (2 / 5) = - ln (5 / 2)).
  { rewrite <- ln_Rinv by lra. f_equal. field. }
  rewrite Ha in H. pose proof ln_five_halves_le_1 as H1.
  assert (H2 : c * (- ln (5 / 2) - ln c) <= c * (2 / 5 / c - 1)).
  { apply Rmult_le_compat_l; lra. }
  replace (c * (2 / 5 / c - 1)) with (2 / 5 - c) in H2 by (field; lra).
  nra.
Qed.

Lemma ln_1000_le : ln 1000 <= 10 * ln 2.
Proof.
  replace 10 with (INR 10) by (rewrite INR_IZR_INZ; reflexivity).
  rewrite <- ln_pow by lra. left. apply ln_increasing; [lra|].
  rewrite pow_IZR. apply IZR_lt. reflexivity.
Qed.

(** One term of the Shannon score never exceeds two thirds. *)
Lemma shannon_term_bound (c : R) :
  0 < c -> - (c * (ln (Rmax (1 / 1000) c) / ln 2)) <= 2 / 3.
Proof.
  intros Hc. pose proof ln_2_ge_three_fifths as H2.
  assert (Hinv : 0 < / ln 2 <= 5 / 3).
  { split; [apply Rinv_0_lt_compat; lra|].
    replace (5 / 3) with (/ (3 / 5)) by field.
    apply Rinv_le_contravar; lra. }
  destruct (Rle_lt_dec (1 / 1000) c) as [Hbig|Hsmall].
  - rewrite Rmax_right by exact Hbig.
    pose proof (entropy_term_bound c Hc) as Hb.
    unfold Rdiv at 1. nra.
  - rewrite Rmax_left by lra.
    assert (Hl : ln (1 / 1000) = - ln 1000).
    { rewrite <- ln_Rinv by lra. f_equal. field. }
    rewrite Hl. pose proof ln_1000_le as H1000.
    assert (H0 : 0 <= ln 1000).
    { rewrite <- ln_1. left. apply ln_increasing; lra. }
    unfold Rdiv at 1.
    assert (Hq : ln 1000 * / ln 2 <= 10).
    { apply (Rmult_le_reg_r (ln 2)); [lra|].
      rewrite Rmult_assoc, Rinv_l by lra. lra. }
    nra.
Qed.

Lemma shannon_terms_upper (cs : list R) :
  - sum (map (fun c => c * (ln (Rmax (1 / 1000) c) / ln 2))
             (filter (fun c => if Rgt_dec c 0 then true else false) cs))
  <= 2 / 3 * INR (length cs).
Proof.
  induction cs as [|c cs IH].
  - simpl. rewrite sum_nil. lra.
  - cbn [filter length]. rewrite S_INR.
    destruct (Rgt_dec c 0) as [Hpos|Hnpos].
    + cbn [map]. rewrite sum_cons.
      pose proof (shannon_term_bound c Hpos). lra.
    + lra.
Qed.

Lemma shannon_terms_nonneg (cs : list R) :
  Forall (fun c => c <= 1) cs ->
  0 <= - sum (map (fun c => c * (ln (Rmax (1 / 1000) c) / ln 2))
                  (filter (fun c => if Rgt_dec c 0 then true else false) cs)).
Proof.
  induction 1 as [|c cs Hc _ IH].
  - simpl. rewrite sum_nil. lra.
  - cbn [filter]. destruct (Rgt_dec c 0) as [Hpos|Hnpos]; [|exact IH].
    cbn [map]. rewrite sum_cons.
    assert (Hm : 0 < Rmax (1 / 1000) c <= 1).
    { split; [pose proof (Rmax_l (1 / 1000) c); lra|apply Rmax_lub; lra]. }
    pose proof (ln_le_minus_one _ (proj1 Hm)) as Hl.
    pose proof ln_2_ge_three_fifths as H2.
    assert (Hq : ln (Rmax (1 / 1000) c) / ln 2 <= 0).
    { unfold Rdiv. assert (0 < / ln 2) by (apply Rinv_0_lt_compat; lra). nra. }
    nra.
Qed.

(** X6.  The information content of a fusion is at most two thirds per signal,
    and it is not negative when no confidence exceeds one. *)
Theorem information_content_is_bounded
  (signals : list Signal) (weights : list R) :
  signals <> [] -> length signals = length weights ->
  exists f,
    mathematical_tensor_fusion signals weights = Ok f /\
    information_content f <= 2 / 3 * INR (length signals) /\
    (Forall (fun s => confidence s <= 1) signals -> 0 <= information_content f).
Proof.
  intros Hne Hlen. eexists. split; [apply fusion_spec; assumption|].
  cbn [Spec.fusion_value information_content]. unfold Spec.shannon. split.
  - pose proof (shannon_terms_upper (map confidence signals)) as H.
    rewrite length_map in H. exact H.
  - intros Hall. apply shannon_terms_nonneg.
    apply Forall_forall. intros c Hin. apply in_map_iff in Hin as [s [<- Hs]].
    rewrite Forall_forall in Hall. exact (Hall s Hs).
Qed.

Lemma information_content_is_bounded_example :
  exists f,
    mathematical_tensor_fusion Examples.example_signals Examples.example_weights
      = Ok f /\
    information_content f <= 2 / 3 * INR (length Examples.example_signals) /\
    (Forall (fun s => confidence s <= 1) Examples.example_signals ->
     0 <= information_content f).
Proof.
  apply (information_content_is_bounded
           Examples.example_signals Examples.example_weights);
    [discriminate|reflexivity].
Defined.

(** At most three signals carry an information content of at most two. *)
Lemma gate_stays_closed (signals : list Signal) (weights : list R) :
  (length signals <= 3)%nat ->
  forall actual_direction actual_magnitude acc,
    combination_step (Spec.fusion_value signals weights)
      actual_direction actual_magnitude acc = acc.
Proof.
  intros Hshort d m acc. unfold combination_step.
  cbn [Spec.fusion_value information_content]. unfold Spec.shannon.
  pose proof (shannon_terms_upper (map confidence signals)) as Hup.
  rewrite length_map in Hup.
  assert (Hn : INR (length signals) <= 3).
  { replace 3 with (INR 3) by (rewrite INR_IZR_INZ; reflexivity).
    apply le_INR. exact Hshort. }
  destruct (Rgt_dec _ 2) as [Hgt|_]; [lra|].
  rewrite andb_false_r. reflexivity.
Qed.

(** X7.  The fusion of at most three signals never passes the trade gate of
    [prove_additive_value], which asks for an information content above
    [2.0]: the step of the simulation leaves the running totals as they
    are, whatever the confidences and the outcome. *)
Theorem three_signals_never_trade
  (signals : list Signal) (weights : list R) :
  signals <> [] -> length signals = length weights ->
  (length signals <= 3)%nat ->
  exists f,
    mathematical_tensor_fusion signals weights = Ok f /\
    forall actual_direction actual_magnitude acc,
      combination_step f actual_direction actual_magnitude acc = acc.
Proof.
  intros Hne Hlen Hshort. eexists.
  split; [apply fusion_spec; assumption|].
  apply gate_stays_closed. exact Hshort.
Qed.

Lemma three_signals_never_trade_example :
  exists f,
    mathematical_tensor_fusion Examples.example_signals Examples.example_weights
      = Ok f /\
    forall actual_direction actual_magnitude acc,
      combination_step f actual_direction actual_magnitude acc = acc.
Proof.
  apply (three_signals_never_trade
           Examples.example_signals Examples.example_weights).
  - discriminate.
  - reflexivity.
  - cbn [Examples.example_signals length]. lia.
Defined.

Lemma sum_perm (xs ys : list R) : Permutation xs ys -> sum xs = sum ys.
Proof.
  induction 1 as [|x xs ys _ IH|x y xs|xs ys zs _ IH1 _ IH2].
  - reflexivity.
  - rewrite !sum_cons, IH. reflexivity.
  - rewrite !sum_cons. lra.
  - rewrite IH1. exact IH2.
Qed.

Lemma sum_int_perm (xs ys : list Z) : Permutation xs ys -> sum_int xs = sum_int ys.
Proof.
  induction 1 as [|x xs ys _ IH|x y xs|xs ys zs _ IH1 _ IH2].
  - reflexivity.
  - rewrite !FusionTheorems.sum_int_cons, IH. reflexivity.
  - rewrite !FusionTheorems.sum_int_cons. lia.
  - rewrite IH1. exact IH2.
Qed.

Lemma filter_perm {A : Type} (f : A -> bool) (xs ys : list A) :
  Permutation xs ys -> Permutation (filter f xs) (filter f ys).
Proof.
  induction 1 as [|x xs ys _ IH|x y xs|xs ys zs _ IH1 _ IH2]; cbn [filter].
  - apply perm_nil.
  - destruct (f x); [apply perm_skip|]; exact IH.
  - destruct (f x), (f y); try apply Permutation_refl. apply perm_swap.
  - exact (perm_trans IH1 IH2).
Qed.

Lemma repeat_as_map {A B : Type} (u : B) (xs : list A) :
  repeat u (length xs) = map (fun _ => u) xs.
Proof.
  induction xs as [|x xs IH]; [reflexivity|].
  cbn [length repeat map]. rewrite IH. reflexivity.
Qed.

(** The normalized weights are the weights mapped through a function that
    depends on their sum and their number only. *)
Lemma normalized_as_map (weights : list R) :
  Spec.normalized weights =
  map (Conditions.share (sum weights) (length weights)) weights.
Proof.
  unfold Spec.normalized.
  destruct (Rgt_dec (sum weights) 0) as [Hp|Hn].
  - apply map_ext. intros w. unfold Conditions.share.
    destruct (Rgt_dec (sum weights) 0); [reflexivity|contradiction].
  - rewrite repeat_as_map. apply map_ext. intros w. unfold Conditions.share.
    destruct (Rgt_dec (sum weights) 0); [contradiction|reflexivity].
Qed.

Lemma combine_projections_map (h : R -> R) (ps : list (Signal * R)) :
  combine (map fst ps) (map h (map snd ps)) = map (fun '(s, w) => (s, h w)) ps.
Proof.
  induction ps as [|[s w] ps IH]; [reflexivity|].
  cbn [map combine fst snd]. rewrite IH. reflexivity.
Qed.

Lemma weighted_sum_perm (g : Signal -> R) (h : R -> R)
  (ps ps' : list (Signal * R)) :
  Permutation ps ps' ->
  sum (map (fun '(s, w) => g s * w) (combine (map fst ps) (map h (map snd ps)))) =
  sum (map (fun '(s, w) => g s * w) (combine (map fst ps') (map h (map snd ps')))).
Proof.
  intros Hp. rewrite !combine_projections_map, !map_map.
  apply sum_perm. apply Permutation_map. exact Hp.
Qed.

(** X8.  The pairs of a signal and its weight may come in any order: the fusion
    returns the same, or raises the same. *)
Theorem fusion_ignores_the_order (ps ps' : list (Signal * R)) :
  Permutation ps ps' ->
  mathematical_tensor_fusion (map fst ps) (map snd ps) =
  mathematical_tensor_fusion (map fst ps') (map snd ps').
Proof.
  intros Hp.
  destruct ps as [|p ps].
  - apply Permutation_nil in Hp. subst ps'. reflexivity.
  - destruct ps' as [|p' ps'].
    { apply Permutation_sym, Permutation_nil in Hp. discriminate. }
    rewrite !fusion_spec by (try discriminate; rewrite !length_map; reflexivity).
    f_equal.
    set (qs := p :: ps) in *. set (qs' := p' :: ps') in *.
    pose proof (Permutation_map fst Hp) as Hsig.
    pose proof (Permutation_map snd Hp) as Hw.
    assert (Hsum : sum (map snd qs) = sum (map snd qs')) by (apply sum_perm; exact Hw).
    assert (Hlen : length (map snd qs) = length (map snd qs'))
      by (apply Permutation_length; exact Hw).
    assert (Hslen : length (map fst qs) = length (map fst qs'))
      by (apply Permutation_length; exact Hsig).
    unfold Spec.fusion_value.
    rewrite !normalized_as_map, <- Hsum, <- Hlen.
    set (h := Conditions.share (sum (map snd qs)) (length (map snd qs))).
    f_equal.
    + unfold Spec.weighted_confidence. apply (weighted_sum_perm confidence h). exact Hp.
    + unfold Spec.weighted_direction_sum.
      rewrite (weighted_sum_perm (fun s => IZR (direction s) * confidence s) h qs qs' Hp).
      reflexivity.
    + apply (weighted_sum_perm (fun s => magnitude s * confidence s) h). exact Hp.
    + pose proof (Permutation_map direction Hsig) as Hd.
      unfold Spec.population_variance, Spec.mean_int.
      rewrite (sum_int_perm _ _ Hd), (Permutation_length Hd).
      do 3 f_equal. f_equal. apply sum_perm. apply Permutation_map. exact Hd.
    + unfold Spec.shannon. f_equal. apply sum_perm. apply Permutation_map.
      apply filter_perm. apply Permutation_map. exact Hsig.
    + exact Hslen.
Qed.

Lemma fusion_ignores_the_order_example :
  mathematical_tensor_fusion
    (map fst (combine Examples.example_signals Examples.example_weights))
    (map snd (combine Examples.example_signals Examples.example_weights)) =
  mathematical_tensor_fusion
    (map fst (rev (combine Examples.example_signals Examples.example_weights)))
    (map snd (rev (combine Examples.example_signals Examples.example_weights))).
Proof.
  apply (fusion_ignores_the_order
           (combine Examples.example_signals Examples.example_weights)
           (rev (combine Examples.example_signals Examples.example_weights))).
  apply Permutation_rev.
Defined.

Lemma normalized_with_zero (weights : list R) :
  0 < sum weights ->
  Spec.normalized (0 :: weights) = 0 :: Spec.normalized weights.
Proof.
  intros Hs. unfold Spec.normalized. rewrite sum_cons.
  destruct (Rgt_dec (0 + sum weights) 0) as [_|H]; [|lra].
  destruct (Rgt_dec (sum weights) 0) as [_|H]; [|lra].
  cbn [map]. f_equal; [unfold Rdiv; lra|].
  apply map_ext. intros w. f_equal. lra.
Qed.

(** X9.  A signal of weight zero, next to weights of positive sum, has no part
    in the fused confidence, direction and magnitude; it is still counted
    among the contributing signals. *)
Theorem zero_weighted_signal_is_ignored
  (s : Signal) (signals : list Signal) (weights : list R) :
  signals <> [] -> length signals = length weights -> 0 < sum weights ->
  exists f f',
    mathematical_tensor_fusion signals weights = Ok f /\
    mathematical_tensor_fusion (s :: signals) (0 :: weights) = Ok f' /\
    fused_confidence f' = fused_confidence f /\
    fused_direction f' = fused_direction f /\
    fused_magnitude f' = fused_magnitude f /\
    contributing_signals f' = S (contributing_signals f).
Proof.
  intros Hne Hlen Hs. eexists. eexists.
  split; [apply fusion_spec; assumption|].
  split; [apply fusion_spec; [discriminate|cbn [length]; f_equal; exact Hlen]|].
  cbn [Spec.fusion_value fused_confidence fused_direction fused_magnitude
         contributing_signals length].
  unfold Spec.weighted_confidence, Spec.weighted_direction_sum.
  rewrite (normalized_with_zero weights Hs). cbn [combine map].
  rewrite !sum_cons, !Rmult_0_r, !Rplus_0_l.
  repeat split; reflexivity.
Qed.

Lemma zero_weighted_signal_is_ignored_example :
  exists f f',
    mathematical_tensor_fusion Examples.example_signals Examples.example_weights
      = Ok f /\
    mathematical_tensor_fusion
      (Examples.half_confident :: Examples.example_signals)
      (0 :: Examples.example_weights) = Ok f' /\
    fused_confidence f' = fused_confidence f /\
    fused_direction f' = fused_direction f /\
    fused_magnitude f' = fused_magnitude f /\
    contributing_signals f' = S (contributing_signals f).
Proof.
  apply (zero_weighted_signal_is_ignored Examples.half_confident
           Examples.example_signals Examples.example_weights).
  - discriminate.
  - reflexivity.
  - unfold Examples.example_weights. rewrite !sum_cons, sum_nil. lra.
Defined.

End FusionExtras.

(* ================================================================== *)
(** ** Properties of the strategies and of the simulation *)

Module StrategyExtras.
Import Py PyFacts Strategy.

Lemma compute_direction_range (self : AIStrategy) (ms : MarketState) (u : R) :
  Spec.is_direction (_compute_direction self ms u).
Proof.
  unfold _compute_direction, Spec.is_direction.
  repeat match goal with
         | |- context [String.eqb ?a ?b] => destruct (String.eqb a b)
         | |- context [Rgt_dec ?a ?b] => destruct (Rgt_dec a b)
         end; auto.
Qed.

Lemma specialty_factor_range (self : AIStrategy) (ms : MarketState) :
  1 <= _get_specialty_factor self ms <= 15 / 10.
Proof.
  unfold _get_specialty_factor.
  repeat match goal with
         | |- context [String.eqb ?a ?b] => destruct (String.eqb a b)
         | |- context [Rgt_dec ?a ?b] => destruct (Rgt_dec a b)
         | |- context [Rlt_dec ?a ?b] => destruct (Rlt_dec a b)
         end; cbn [andb]; lra.
Qed.

Lemma generate_signal_ranges
  (self : AIStrategy) (market_state : MarketState) (d : Draws) :
  Conditions.well_formed_strategy self -> Conditions.unit_draws d ->
  0 <= Advanced.confidence (signal (generate_signal self market_state d))
    <= reliability self /\
  fst (magnitude_range self)
    <= Advanced.magnitude (signal (generate_signal self market_state d))
    <= snd (magnitude_range self).
Proof.
  intros [Hrel Hrange] Hd. unfold Conditions.unit_draws in Hd.
  unfold generate_signal.
  cbn [signal Advanced.confidence Advanced.magnitude].
  set (b := Rmax 0 (Rmin 1 (accuracy self + gauss d))).
  assert (Hb : 0 <= b <= 1).
  { unfold b. split; [apply Rmax_l|].
    apply Rmax_lub; [lra|apply Rmin_l]. }
  split; nra.
Qed.

Lemma generate_signal_well_formed
  (self : AIStrategy) (market_state : MarketState) (d : Draws) :
  Conditions.well_formed_strategy self -> Conditions.unit_draws d ->
  Conditions.well_formed_signal (signal (generate_signal self market_state d)).
Proof.
  intros Hs Hd.
  destruct (generate_signal_ranges self market_state d Hs Hd) as [Hc Hm].
  destruct Hs as [Hrel Hrange].
  unfold Conditions.well_formed_signal.
  split; [lra|]. split; [|lra].
  apply compute_direction_range.
Qed.

(** X10.  Whatever the market state and the random numbers, a strategy whose
    reliability is a proportion and whose magnitude range is ordered
    generates a signal of the data model: a confidence between 0 and its
    reliability, a direction of [-1] or [+1], a magnitude within its range;
    and a specialty factor between 1 and 1.5. *)
Theorem generated_signals_are_well_formed
  (self : AIStrategy) (market_state : MarketState) (d : Draws) :
  Conditions.well_formed_strategy self -> Conditions.unit_draws d ->
  let g := generate_signal self market_state d in
  0 <= Advanced.confidence (signal g) <= reliability self /\
  Spec.is_direction (Advanced.direction (signal g)) /\
  fst (magnitude_range self) <= Advanced.magnitude (signal g)
    <= snd (magnitude_range self) /\
  1 <= specialty_factor g <= 15 / 10 /\
  Conditions.well_formed_signal (signal g).
Proof.
  intros Hs Hd. cbn zeta.
  destruct (generate_signal_ranges self market_state d Hs Hd) as [Hc Hm].
  split; [exact Hc|]. split; [apply compute_direction_range|].
  split; [exact Hm|]. split; [apply specialty_factor_range|].
  apply generate_signal_well_formed; assumption.
Qed.

Lemma create_ai_strategies_well_formed :
  Forall Conditions.well_formed_strategy create_ai_strategies.
Proof.
  unfold create_ai_strategies, Conditions.well_formed_strategy.
  repeat (apply Forall_cons;
          [cbn [reliability magnitude_range fst snd]; lra|]).
  apply Forall_nil.
Qed.

Lemma sample_draws_unit : Conditions.unit_draws Conditions.sample_draws.
Proof.
  unfold Conditions.unit_draws, Conditions.sample_draws. cbn [fraction]. lra.
Qed.

Lemma generated_signals_are_well_formed_example :
  let self := nth 0 create_ai_strategies
                  (mkAIStrategy "" "" "" 0 (0, 0) 0 0) in
  let g := generate_signal self Conditions.sample_state Conditions.sample_draws in
  0 <= Advanced.confidence (signal g) <= reliability self /\
  Spec.is_direction (Advanced.direction (signal g)) /\
  fst (magnitude_range self) <= Advanced.magnitude (signal g)
    <= snd (magnitude_range self) /\
  1 <= specialty_factor g <= 15 / 10 /\
  Conditions.well_formed_signal (signal g).
Proof.
  apply (generated_signals_are_well_formed
           (nth 0 create_ai_strategies (mkAIStrategy "" "" "" 0 (0, 0) 0 0))
           Conditions.sample_state Conditions.sample_draws).
  - exact (Forall_inv create_ai_strategies_well_formed).
  - exact sample_draws_unit.
Defined.

(** X11.  On a market state that has none of the keys, the default values decide:
    each of the five specialised strategies predicts [-1], whatever its
    parameters. *)
Theorem specialised_strategies_default_to_minus_one
  (self : AIStrategy) (u : R) :
  Conditions.specialised self -> _compute_direction self [] u = (-1)%Z.
Proof.
  unfold Conditions.specialised. intros Hs. cbn [In] in Hs.
  unfold _compute_direction. cbn [get]. unfold len. cbn [length].
  rewrite !sum_cons, sum_nil.
  replace (INR 2) with 2 by (rewrite INR_IZR_INZ; reflexivity).
  destruct Hs as [<-|[<-|[<-|[<-|[<-|[]]]]]];
    cbn [String.eqb Ascii.eqb Bool.eqb];
    match goal with
    | |- context [Rgt_dec ?a ?b] => destruct (Rgt_dec a b); [lra|reflexivity]
    end.
Qed.

Lemma specialised_strategies_default_to_minus_one_example :
  _compute_direction
    (nth 0 create_ai_strategies (mkAIStrategy "" "" "" 0 (0, 0) 0 0))
    [] (9 / 10) = (-1)%Z.
Proof.
  apply (specialised_strategies_default_to_minus_one
           (nth 0 create_ai_strategies (mkAIStrategy "" "" "" 0 (0, 0) 0 0))
           (9 / 10)).
  left. reflexivity.
Defined.

Lemma generate_signals_length (combo : list AIStrategy) (ms : MarketState)
  (d : nat -> Draws) :
  length (generate_signals combo ms d) = length combo.
Proof.
  unfold generate_signals.
  rewrite length_map, length_combine, length_seq. apply Nat.min_id.
Qed.

Lemma combo_weights_length (combo : list AIStrategy) :
  length (combo_weights combo) = length combo.
Proof. apply length_map. Qed.

Lemma generate_signals_nonempty (combo : list AIStrategy) (ms : MarketState)
  (d : nat -> Draws) :
  combo <> [] -> generate_signals combo ms d <> [].
Proof.
  intros Hne Hnil. apply (f_equal (@length _)) in Hnil.
  rewrite generate_signals_length in Hnil.
  destruct combo; [congruence|discriminate].
Qed.

(** The fusion inside the simulation gets as many weights as signals. *)
Lemma combination_fusion_returns (combo : list AIStrategy) (ms : MarketState)
  (d : nat -> Draws) :
  combo <> [] ->
  Advanced.mathematical_tensor_fusion
    (generate_signals combo ms d) (combo_weights combo) =
  Ok (Spec.fusion_value (generate_signals combo ms d) (combo_weights combo)).
Proof.
  intros Hne. apply AdvancedFacts.fusion_spec.
  - apply generate_signals_nonempty. exact Hne.
  - rewrite generate_signals_length, combo_weights_length. reflexivity.
Qed.

Lemma priority_weight_positive (n : string) : 0 < get priority_weights n 1.
Proof.
  unfold priority_weights. cbn [get].
  repeat match goal with
         | |- context [String.eqb ?a ?b] => destruct (String.eqb a b); try lra
         end.
Qed.

Lemma combo_weights_nonneg (combo : list AIStrategy) :
  Forall (fun w => 0 <= w) (combo_weights combo).
Proof.
  apply Forall_forall. intros w Hin. apply in_map_iff in Hin as [s [<- _]].
  left. apply priority_weight_positive.
Qed.

Lemma generated_signals_all_well_formed (combo : list AIStrategy)
  (ms : MarketState) (d : nat -> Draws) :
  Forall Conditions.well_formed_strategy combo ->
  (forall i, Conditions.unit_draws (d i)) ->
  Forall Conditions.well_formed_signal (generate_signals combo ms d).
Proof.
  intros Hall Hd. apply Forall_forall. intros x Hin.
  unfold generate_signals in Hin. apply in_map_iff in Hin as [[i s] [<- Hin]].
  apply in_combine_r in Hin. rewrite Forall_forall in Hall.
  apply (generate_signal_well_formed s ms (d i) (Hall s Hin) (Hd i)).
Qed.

Lemma weighted_sum_nonneg (g : Advanced.Signal -> R)
  (signals : list Advanced.Signal) (nw : list R) :
  Forall (fun w => 0 <= w) nw ->
  (forall s, In s signals -> 0 <= g s) ->
  0 <= sum (map (fun '(s, w) => g s * w) (combine signals nw)).
Proof.
  intros Hnw. revert signals.
  induction Hnw as [|w nw Hw _ IH]; intros signals Hg.
  - destruct signals; simpl; rewrite sum_nil; lra.
  - destruct signals as [|s signals]; [simpl; rewrite sum_nil; lra|].
    cbn [combine map]. rewrite sum_cons.
    specialize (IH signals (fun s' Hin => Hg s' (or_intror Hin))).
    pose proof (Hg s (or_introl eq_refl)). nra.
Qed.

(** X12.  In the simulation the fusion never raises and stays within the data
    model: for a combination that is not empty, of strategies with sound
    parameters, the signals generated at any market state are fused to a
    confidence between 0 and 1, a magnitude that is not negative and a
    direction of [-1] or [+1]. *)
Theorem simulated_fusion_is_well_formed
  (combo : list AIStrategy) (market_state : MarketState) (d : nat -> Draws) :
  combo <> [] ->
  Forall Conditions.well_formed_strategy combo ->
  (forall i, Conditions.unit_draws (d i)) ->
  exists f,
    Advanced.mathematical_tensor_fusion
      (generate_signals combo market_state d) (combo_weights combo) = Ok f /\
    0 <= Advanced.fused_confidence f <= 1 /\
    0 <= Advanced.fused_magnitude f /\
    Spec.is_direction (Advanced.fused_direction f).
Proof.
  intros Hne Hall Hd.
  pose proof (generated_signals_all_well_formed combo market_state d Hall Hd) as Hwf.
  rewrite Forall_forall in Hwf.
  set (signals := generate_signals combo market_state d) in *.
  set (weights := combo_weights combo).
  assert (Hlen : length signals = length weights).
  { unfold signals, weights.
    rewrite generate_signals_length, combo_weights_length. reflexivity. }
  assert (Hwne : weights <> []).
  { unfold weights. destruct combo; [congruence|discriminate]. }
  pose proof (FusionExtras.normalized_nonneg weights (combo_weights_nonneg combo)) as Hnn.
  pose proof (AdvancedFacts.normalized_sum weights Hwne) as Hsum.
  assert (Hnl : length signals = length (Spec.normalized weights))
    by (rewrite AdvancedFacts.normalized_length; exact Hlen).
  eexists. split; [apply combination_fusion_returns; exact Hne|].
  fold signals weights.
  cbn [Spec.fusion_value Advanced.fused_confidence Advanced.fused_magnitude
         Advanced.fused_direction].
  split; [|split].
  - unfold Spec.weighted_confidence.
    pose proof (FusionExtras.weighted_sum_bounds Advanced.confidence 0 1
                  signals _ Hnn Hnl (fun s Hin => proj1 (Hwf s Hin))) as H.
    rewrite Hsum in H. lra.
  - apply (weighted_sum_nonneg
             (fun s => Advanced.magnitude s * Advanced.confidence s)).
    + exact Hnn.
    + intros s Hin. destruct (Hwf s Hin) as [Hc [_ Hm]]. nra.
  - unfold Spec.is_direction. destruct (Rgt_dec _ 0); [left|right]; reflexivity.
Qed.

Lemma simulated_fusion_is_well_formed_example :
  exists f,
    Advanced.mathematical_tensor_fusion
      (generate_signals create_ai_strategies Conditions.sample_state
         (fun _ => Conditions.sample_draws))
      (combo_weights create_ai_strategies) = Ok f /\
    0 <= Advanced.fused_confidence f <= 1 /\
    0 <= Advanced.fused_magnitude f /\
    Spec.is_direction (Advanced.fused_direction f).
Proof.
  apply (simulated_fusion_is_well_formed create_ai_strategies
           Conditions.sample_state (fun _ => Conditions.sample_draws)).
  - discriminate.
  - exact create_ai_strategies_well_formed.
  - intros _. exact sample_draws_unit.
Defined.

Lemma small_combination_pass (combo : list AIStrategy) (rounds : list Round)
  (acc : Advanced.Tally) :
  combo <> [] -> (length combo <= 3)%nat ->
  combination_pass combo rounds acc = Ok acc.
Proof.
  intros Hne Hshort. induction rounds as [|r rounds IH]; [reflexivity|].
  cbn [combination_pass]. unfold combination_round.
  rewrite (combination_fusion_returns _ _ _ Hne). cbn [bind ret].
  rewrite FusionExtras.gate_stays_closed
    by (rewrite generate_signals_length; exact Hshort).
  exact IH.
Qed.

Lemma count_trades_returns (combo : list AIStrategy) (rounds : list Round) :
  combo <> [] -> exists n, count_trades combo rounds = Ok n.
Proof.
  intros Hne. induction rounds as [|r rounds [n IH]].
  - exists 0%nat. reflexivity.
  - cbn [count_trades]. rewrite (combination_fusion_returns _ _ _ Hne).
    cbn [bind]. rewrite IH. cbn [bind ret]. eexists. reflexivity.
Qed.

(** X13.  A combination of one, two or three strategies never books a trade:
    whatever the market states, the random numbers and the number of
    states that are counted as trades, the result has a total profit, an
    average profit per trade and an accuracy of zero. *)
Theorem small_combinations_never_trade
  (combo : list AIStrategy) (rounds : list Round) :
  combo <> [] -> (length combo <= 3)%nat ->
  exists res,
    combination_result combo rounds = Ok res /\
    combination_total_profit res = 0 /\
    avg_profit_per_trade res = 0 /\
    combination_accuracy res = 0 /\
    strategies_count res = length combo.
Proof.
  intros Hne Hshort. unfold combination_result.
  rewrite (small_combination_pass combo rounds _ Hne Hshort). cbn [bind].
  destruct (count_trades_returns combo rounds Hne) as [n Hn].
  rewrite Hn. cbn [bind Advanced.total_profit Advanced.correct_predictions].
  destruct (Nat.ltb 0 n) eqn:Hpos.
  - assert (Hd : INR (Nat.max 1 n) <> 0).
    { apply not_0_INR. lia. }
    rewrite !truediv_ok by exact Hd. cbn [bind ret INR].
    eexists. split; [reflexivity|].
    cbn [combination_total_profit avg_profit_per_trade combination_accuracy
           strategies_count].
    repeat split; unfold Rdiv; lra.
  - cbn [bind ret]. eexists. split; [reflexivity|].
    cbn [combination_total_profit avg_profit_per_trade combination_accuracy
           strategies_count].
    repeat split; lra.
Qed.

Lemma small_combinations_never_trade_example :
  exists res,
    combination_result Conditions.advanced_only
      [Conditions.sample_round; Conditions.sample_round] = Ok res /\
    combination_total_profit res = 0 /\
    avg_profit_per_trade res = 0 /\
    combination_accuracy res = 0 /\
    strategies_count res = length Conditions.advanced_only.
Proof.
  apply (small_combinations_never_trade Conditions.advanced_only
           [Conditions.sample_round; Conditions.sample_round]).
  - discriminate.
  - cbn [Conditions.advanced_only create_ai_strategies firstn length]. lia.
Defined.




End StrategyExtras.

(* ================================================================== *)
(** ** Properties of the uniqueness scores *)

Module UniquenessExtras.
Import Py PyFacts Uniqueness.











(** X16.  A strategy that is alone has no neighbour to be measured against: its
    performance score stays at the initial [float('inf')] and so does its
    total, while its other scores are 1, 1 and 0. *)
Theorem lone_strategy_is_infinitely_unique (s : Strategy.AIStrategy) :
  calculate_strategy_uniqueness [s] =
  Ok [(Strategy.name s,
       {| specialty_uniqueness := 1;
          math_uniqueness := 1;
          performance_uniqueness := Np.PInf;
          complexity_uniqueness := 0;
          total_uniqueness := Np.PInf;
          mathematical_basis := Strategy.math_domain s |})].
Proof.
  unfold calculate_strategy_uniqueness, enumerate.
  cbn [length seq combine uniqueness_loop]. unfold uniqueness_of.
  cbn [filter]. rewrite !String.eqb_refl. cbn [length INR].
  rewrite truediv_ok by lra. cbn [bind].
  unfold enumerate. cbn [length seq combine nearest Nat.eqb bind].
  unfold len. cbn [map length INR].
  rewrite truediv_ok by lra. cbn [bind ret dict_set].
  unfold sum_int. cbn [fold_left].
  replace (IZR (0 + Strategy.computational_complexity s) / 1)
    with (IZR (Strategy.computational_complexity s))
    by (rewrite Z.add_0_l; field).
  rewrite Rminus_diag, Rabs_R0.
  cbn [Np.add Np.mul]. unfold Np.signed_inf.
  destruct (Rgt_dec (25 / 100) 0) as [_|Hn]; [|lra].
  do 3 f_equal. f_equal; lra.
Qed.

End UniquenessExtras.

(* ================================================================== *)
(** ** Further properties of mathematical_proof_simple.py *)

Module PortfolioExtras.
Import Py PyFacts Simple SimpleProof.




Lemma combine_surplus_right {A B : Type} (xs : list A) (ys more : list B) :
  length xs = length ys -> combine xs (ys ++ more) = combine xs ys.
Proof.
  revert ys. induction xs as [|x xs IH]; intros ys Hlen.
  - reflexivity.
  - destruct ys as [|y ys]; [discriminate|]. cbn [app combine].
    f_equal. apply IH. injection Hlen as Hlen. exact Hlen.
Qed.

Lemma combine_surplus_left {A B : Type} (xs more : list A) (ys : list B) :
  length xs = length ys -> combine (xs ++ more) ys = combine xs ys.
Proof.
  revert ys. induction xs as [|x xs IH]; intros ys Hlen.
  - destruct ys; [|discriminate]. destruct more; reflexivity.
  - destruct ys as [|y ys]; [discriminate|]. cbn [app combine].
    f_equal. apply IH. injection Hlen as Hlen. exact Hlen.
Qed.

Lemma sum_app (xs ys : list R) : sum (xs ++ ys) = sum xs + sum ys.
Proof.
  induction xs as [|x xs IH]; cbn [app].
  - rewrite sum_nil. lra.
  - rewrite !sum_cons, IH. lra.
Qed.

Lemma sum_combine_scaled (g : AiSystem R -> R) (k : R)
  (ws : list R) (systems : list (AiSystem R)) :
  sum (map (fun '(w, s) => w * g s) (combine (map (fun w => w * k) ws) systems)) =
  k * sum (map (fun '(w, s) => w * g s) (combine ws systems)).
Proof.
  revert systems. induction ws as [|w ws IH]; intros systems.
  - simpl. rewrite sum_nil. lra.
  - destruct systems as [|s systems]; [simpl; rewrite sum_nil; lra|].
    cbn [map combine]. rewrite !sum_cons, IH. lra.
Qed.

(** X18.  The routine does not compare the two lengths.  Systems beyond the last
    weight are left out without notice; weights beyond the last system are
    counted in the total that normalizes the others and left out of the
    averages, which shrink by the share of the matched weights. *)
Theorem surplus_inputs_are_dropped_silently
  (systems more_systems : list (AiSystem R)) (weights more_weights : list R) :
  length systems = length weights ->
  sum weights <> 0 -> sum (weights ++ more_weights) <> 0 ->
  calculate_portfolio_performance (systems ++ more_systems) weights =
  calculate_portfolio_performance systems weights /\
  exists p q,
    calculate_portfolio_performance systems weights = Ok p /\
    calculate_portfolio_performance systems (weights ++ more_weights) = Ok q /\
    portfolio_accuracy q =
      sum weights / sum (weights ++ more_weights) * portfolio_accuracy p /\
    portfolio_magnitude q =
      sum weights / sum (weights ++ more_weights) * portfolio_magnitude p /\
    portfolio_reliability q =
      sum weights / sum (weights ++ more_weights) * portfolio_reliability p.
Proof.
  intros Hlen Hs Hs'.
  assert (Hlen' : length (map (fun w => w / sum weights) weights) = length systems)
    by (rewrite length_map; symmetry; exact Hlen).
  split.
  - rewrite !PortfolioTheorems.portfolio_spec by (right; exact Hs).
    unfold Spec.portfolio_of. rewrite !combine_surplus_right by exact Hlen'.
    reflexivity.
  - eexists. eexists.
    split; [apply PortfolioTheorems.portfolio_spec; right; exact Hs|].
    split; [apply PortfolioTheorems.portfolio_spec; right; exact Hs'|].
    set (t := sum (weights ++ more_weights)) in *.
    assert (Hq : combine (map (fun w => w / t) (weights ++ more_weights)) systems =
                 combine (map (fun w => w * (sum weights / t))
                              (map (fun w => w / sum weights) weights)) systems).
    { rewrite map_app, combine_surplus_left by (rewrite length_map; symmetry; exact Hlen).
      rewrite map_map. f_equal. apply map_ext. intros w. field. split; assumption. }
    cbn [Spec.portfolio_of portfolio_accuracy portfolio_magnitude portfolio_reliability].
    rewrite Hq, !sum_combine_scaled. repeat split; reflexivity.
Qed.

Lemma surplus_inputs_are_dropped_silently_example :
  calculate_portfolio_performance
    (firstn 2 ai_systems ++ skipn 2 ai_systems) [1; 3] =
  calculate_portfolio_performance (firstn 2 ai_systems) [1; 3] /\
  exists p q,
    calculate_portfolio_performance (firstn 2 ai_systems) [1; 3] = Ok p /\
    calculate_portfolio_performance (firstn 2 ai_systems) ([1; 3] ++ [4]) = Ok q /\
    portfolio_accuracy q = sum [1; 3] / sum ([1; 3] ++ [4]) * portfolio_accuracy p /\
    portfolio_magnitude q = sum [1; 3] / sum ([1; 3] ++ [4]) * portfolio_magnitude p /\
    portfolio_reliability q =
      sum [1; 3] / sum ([1; 3] ++ [4]) * portfolio_reliability p.
Proof.
  apply (surplus_inputs_are_dropped_silently
           (firstn 2 ai_systems) (skipn 2 ai_systems) [1; 3] [4]).
  - reflexivity.
  - rewrite !sum_cons, sum_nil. lra.
  - cbn [app]. rewrite !sum_cons, sum_nil. lra.
Defined.

Lemma portfolio_average_bounds (g : AiSystem R -> R) (lo hi : R)
  (nw : list R) (systems : list (AiSystem R)) :
  Forall (fun w => 0 <= w) nw ->
  length systems = length nw ->
  (forall s, In s systems -> lo <= g s <= hi) ->
  lo * sum nw <= sum (map (fun '(w, s) => w * g s) (combine nw systems))
  <= hi * sum nw.
Proof.
  intros Hnw. revert systems.
  induction Hnw as [|w nw Hw _ IH]; intros systems Hlen Hg.
  - simpl. rewrite sum_nil. lra.
  - destruct systems as [|s systems]; [discriminate|].
    cbn [combine map]. rewrite !sum_cons.
    injection Hlen as Hlen.
    specialize (IH systems Hlen (fun s' Hin => Hg s' (or_intror Hin))).
    pose proof (Hg s (or_introl eq_refl)) as Hs. nra.
Qed.

Lemma quotients_nonneg (weights : list R) :
  Forall (fun w => 0 <= w) weights -> 0 < sum weights ->
  Forall (fun w => 0 <= w) (map (fun w => w / sum weights) weights).
Proof.
  intros Hall Hs. apply Forall_forall. intros y Hy.
  apply in_map_iff in Hy as [w [<- Hw]].
  rewrite Forall_forall in Hall. specialize (Hall w Hw).
  apply Rmult_le_pos; [exact Hall|]. left. apply Rinv_0_lt_compat. exact Hs.
Qed.

Lemma quotients_sum (weights : list R) :
  sum weights <> 0 -> sum (map (fun w => w / sum weights) weights) = 1.
Proof.
  intros Hs. rewrite sum_map_div. field. exact Hs.
Qed.

(** X19.  In exact arithmetic, with weights that are not negative, one for
    each system, and a positive sum, the portfolio accuracy, magnitude and
    reliability lie between the smallest and the largest value among the
    systems; and when no accuracy exceeds 1 and the magnitudes are positive,
    the risk-adjusted ratio stays below 2.  (Rounding, and a weight sum that
    overflows in binary64, are outside this statement.) *)
Theorem portfolio_averages_stay_in_range
  (systems : list (AiSystem R)) (weights : list R)
  (alo ahi mlo mhi rlo rhi : R) :
  length systems = length weights ->
  Forall (fun w => 0 <= w) weights -> 0 < sum weights ->
  Forall (fun s => alo <= accuracy s <= ahi /\
                   mlo <= avg_magnitude s <= mhi /\
                   rlo <= reliability s <= rhi) systems ->
  exists p,
    calculate_portfolio_performance systems weights = Ok p /\
    alo <= portfolio_accuracy p <= ahi /\
    mlo <= portfolio_magnitude p <= mhi /\
    rlo <= portfolio_reliability p <= rhi /\
    (ahi <= 1 -> 0 < mlo -> risk_adjusted p < 2).
Proof.
  intros Hlen Hw Hs Hall.
  pose proof (quotients_nonneg weights Hw Hs) as Hnn.
  pose proof (quotients_sum weights (Rgt_not_eq _ _ Hs)) as Hsum.
  assert (Hnl : length systems = length (map (fun w => w / sum weights) weights))
    by (rewrite length_map; exact Hlen).
  rewrite Forall_forall in Hall.
  eexists. split; [apply PortfolioTheorems.portfolio_spec; right; lra|].
  cbn [Spec.portfolio_of portfolio_accuracy portfolio_magnitude
         portfolio_reliability risk_adjusted].
  pose proof (portfolio_average_bounds accuracy alo ahi _ systems Hnn Hnl
                (fun s Hin => proj1 (Hall s Hin))) as Ha.
  pose proof (portfolio_average_bounds avg_magnitude mlo mhi _ systems Hnn Hnl
                (fun s Hin => proj1 (proj2 (Hall s Hin)))) as Hm.
  pose proof (portfolio_average_bounds reliability rlo rhi _ systems Hnn Hnl
                (fun s Hin => proj2 (proj2 (Hall s Hin)))) as Hr.
  rewrite Hsum in Ha, Hm, Hr.
  set (A := sum (map (fun '(w, s) => w * accuracy s) _)) in *.
  set (M := sum (map (fun '(w, s) => w * avg_magnitude s) _)) in *.
  set (Rl := sum (map (fun '(w, s) => w * reliability s) _)) in *.
  split; [lra|]. split; [lra|]. split; [lra|].
  intros Hahi Hmlo.
  destruct (Rgt_dec (M * 60 * (5 / 10)) 0) as [Hpos|Hnpos]; [|lra].
  apply (Rmult_lt_reg_r (M * 60 * (5 / 10))); [lra|].
  unfold Rdiv. rewrite Rmult_assoc, Rinv_l by lra. nra.
Qed.

Lemma portfolio_averages_stay_in_range_example :
  exists p,
    calculate_portfolio_performance ai_systems Examples.equal_weights = Ok p /\
    60 / 100 <= portfolio_accuracy p <= 80 / 100 /\
    8 / 1000 <= portfolio_magnitude p <= 25 / 1000 /\
    60 / 100 <= portfolio_reliability p <= 85 / 100 /\
    (80 / 100 <= 1 -> 0 < 8 / 1000 -> risk_adjusted p < 2).
Proof.
  apply (portfolio_averages_stay_in_range ai_systems Examples.equal_weights
           (60 / 100) (80 / 100) (8 / 1000) (25 / 1000) (60 / 100) (85 / 100)).
  - reflexivity.
  - unfold Examples.equal_weights.
    repeat (apply Forall_cons; [lra|]). apply Forall_nil.
  - rewrite PortfolioTheorems.equal_weights_sum. lra.
  - unfold ai_systems, lit. cbn [quot of_int Number_R].
    repeat (apply Forall_cons;
            [cbn [accuracy avg_magnitude reliability]; lra|]).
    apply Forall_nil.
Defined.

Lemma fold_max_dominates {A : Type} (key : A -> R) (rest : list A) (x : A) :
  let best :=
    fold_left (fun best y =>
                 if (if Rgt_dec (key y) (key best) then true else false)
                 then y else best)
              rest x in
  In best (x :: rest) /\ forall y, In y (x :: rest) -> key y <= key best.
Proof.
  cbn zeta. revert x. induction rest as [|z rest IH]; intros x.
  - cbn [fold_left]. split; [now left|]. intros y [<-|[]]. lra.
  - cbn [fold_left].
    destruct (Rgt_dec (key z) (key x)) as [Hgt|Hngt]; cbv beta iota.
    + destruct (IH z) as [Hin Hmax]. split.
      * right. exact Hin.
      * intros y [<-|Hy]; [|apply Hmax; exact Hy].
        pose proof (Hmax z (or_introl eq_refl)). lra.
    + destruct (IH x) as [Hin Hmax]. split.
      * destruct Hin as [<-|Hin]; [now left|right; right; exact Hin].
      * intros y [<-|[<-|Hy]].
        -- apply Hmax. now left.
        -- pose proof (Hmax x (or_introl eq_refl)). lra.
        -- apply Hmax. right. exact Hy.
Qed.

(** X20.  The best case is chosen among all the test cases, the baseline
    included, so the improvement that the script reports is never
    negative: its "no clear advantage" branch is reached only when no
    weight choice beats equal weighting.  On an empty list the choice
    raises the [ValueError] of [max]. *)
Theorem improvement_is_never_negative (test_cases : list (TestCase R)) :
  (test_cases = [] ->
   improvement test_cases =
   Raise (ValueError "max() arg is an empty sequence"%string)) /\
  (test_cases <> [] ->
   exists best d,
     max_by case_risk_adjusted test_cases = Ok best /\
     In best test_cases /\
     (forall c, In c test_cases ->
                case_risk_adjusted c <= case_risk_adjusted best) /\
     improvement test_cases = Ok d /\
     0 <= d).
Proof.
  split.
  - intros ->. reflexivity.
  - intros Hne. destruct test_cases as [|x rest]; [congruence|].
    destruct (fold_max_dominates case_risk_adjusted rest x) as [Hin Hmax].
    eexists. eexists. split; [reflexivity|].
    split; [exact Hin|]. split; [exact Hmax|].
    unfold improvement. cbn [max_by bind Np.item nth_error ret].
    split; [reflexivity|].
    cbn [sub Number_R]. apply Rge_le, Rge_minus, Rle_ge.
    exact (Hmax x (or_introl eq_refl)).
Qed.








End PortfolioExtras.

(* ================================================================== *)
(** ** Further properties of mathematical_proof_validation.py *)

Module ValidationExtras.
Import Py PyFacts Validation ValidationMain.

(** X22.  [main] recomputes the P&L of a trade as
    [60 * magnitude * sign(prediction) * actual_direction - 0.25].  For an
    actual direction of [-1] or [+1] this is the P&L of
    [compute_performance_metrics] whenever the predicted direction has a
    sign; a predicted direction of exactly zero is booked as a loss there
    and as the bare commission here. *)
Theorem recomputed_pnl_agrees_unless_direction_is_zero
  (prediction : Features Np.npfloat) (actual : Outcome) :
  actual_direction actual = 1 \/ actual_direction actual = -1 ->
  (Np.sign (direction prediction) = Np.Fin 1 \/
   Np.sign (direction prediction) = Np.Fin (-1) ->
   series_pnl prediction actual = Np.Fin (trade_pnl prediction actual)) /\
  (direction prediction = Np.Fin 0 ->
   series_pnl prediction actual = Np.Fin (- (25 / 100)) /\
   trade_pnl prediction actual = - actual_magnitude actual * 60 - 25 / 100).
Proof.
  intros Hdir. unfold series_pnl, trade_pnl. split.
  - intros [Hs|Hs]; rewrite Hs; cbn [Np.mul Np.sub Np.neg Np.add Np.eqb];
      destruct Hdir as [Hd|Hd]; rewrite Hd;
      match goal with
      | |- context [Req_dec_T ?a ?b] => destruct (Req_dec_T a b); try lra
      end; f_equal; lra.
  - intros H0. rewrite H0. cbn [Np.sign].
    destruct (Rgt_dec 0 0) as [H|_]; [lra|].
    destruct (Rlt_dec 0 0) as [H|_]; [lra|].
    cbn [Np.mul Np.sub Np.neg Np.add Np.eqb].
    split; [f_equal; lra|].
    destruct Hdir as [Hd|Hd]; rewrite Hd;
      destruct (Req_dec_T 0 _); lra.
Qed.

Lemma recomputed_pnl_agrees_unless_direction_is_zero_example :
  (Np.sign (direction (mkFeatures (Np.Fin 1) (Np.Fin 0) (Np.Fin 1) (Np.Fin 1)))
     = Np.Fin 1 \/
   Np.sign (direction (mkFeatures (Np.Fin 1) (Np.Fin 0) (Np.Fin 1) (Np.Fin 1)))
     = Np.Fin (-1) ->
   series_pnl (mkFeatures (Np.Fin 1) (Np.Fin 0) (Np.Fin 1) (Np.Fin 1))
              (mkOutcome 1 (2 / 100)) =
   Np.Fin (trade_pnl (mkFeatures (Np.Fin 1) (Np.Fin 0) (Np.Fin 1) (Np.Fin 1))
                     (mkOutcome 1 (2 / 100)))) /\
  (direction (mkFeatures (Np.Fin 1) (Np.Fin 0) (Np.Fin 1) (Np.Fin 1)) = Np.Fin 0 ->
   series_pnl (mkFeatures (Np.Fin 1) (Np.Fin 0) (Np.Fin 1) (Np.Fin 1))
              (mkOutcome 1 (2 / 100)) = Np.Fin (- (25 / 100)) /\
   trade_pnl (mkFeatures (Np.Fin 1) (Np.Fin 0) (Np.Fin 1) (Np.Fin 1))
             (mkOutcome 1 (2 / 100)) =
   - actual_magnitude (mkOutcome 1 (2 / 100)) * 60 - 25 / 100).
Proof.
  apply (recomputed_pnl_agrees_unless_direction_is_zero
           (mkFeatures (Np.Fin 1) (Np.Fin 0) (Np.Fin 1) (Np.Fin 1))
           (mkOutcome 1 (2 / 100))).
  left. reflexivity.
Defined.

Lemma broadcast_equal {A B : Type} (xs : list A) (ys : list B) :
  length xs = length ys -> Np.broadcast xs ys = Ok (combine xs ys).
Proof.
  intros Hlen. unfold Np.broadcast.
  rewrite (proj2 (Nat.eqb_eq _ _) Hlen). reflexivity.
Qed.

Lemma normalize_weights_length (weights : list R) :
  length (normalize_weights weights) = length weights.
Proof. apply length_map. Qed.

Lemma fuse_feature_returns (nw : list Np.npfloat) (systems : list (Features R))
  (col : Features R -> R) :
  length nw = length systems ->
  fuse_feature nw systems col =
  Ok (Np.sum (map (fun '(w, x) => Np.mul w (Np.Fin x))
                  (combine nw (map col systems)))).
Proof.
  intros Hlen. unfold fuse_feature.
  rewrite broadcast_equal by (rewrite length_map; exact Hlen). reflexivity.
Qed.

Lemma np_dot_fin (nw xs : list R) :
  Np.sum (map (fun '(w, x) => Np.mul w (Np.Fin x)) (combine (map Np.Fin nw) xs)) =
  Np.Fin (Conditions.dot nw xs).
Proof.
  unfold Conditions.dot. rewrite <- ValidationFacts.np_sum_fin. f_equal.
  revert xs. induction nw as [|w nw IH]; intros xs; [reflexivity|].
  destruct xs as [|x xs]; [reflexivity|]. cbn [map combine Np.mul].
  f_equal. apply IH.
Qed.

(** With as many weights as systems, not adding up to zero, each fused row
    is the weighted average of the rows of its trade. *)
Lemma tensor_fusion_value (n : nat) (signals : list (list (Features R)))
  (weights : list R) :
  Conditions.rectangular n signals -> length weights = n -> sum weights <> 0 ->
  tensor_fusion signals weights =
  Ok (map (fun systems =>
             Conditions.to_np
               (Conditions.weighted_row
                  (map (fun w => w / sum weights) weights) systems))
          signals).
Proof.
  intros Hrect Hlen Hs. unfold tensor_fusion.
  rewrite (ValidationFacts.validation_normalize_fin weights Hs).
  apply mapM_ok. intros systems Hin.
  unfold Conditions.rectangular in Hrect. rewrite Forall_forall in Hrect.
  assert (Hl : length (map Np.Fin (map (fun w => w / sum weights) weights)) =
               length systems)
    by (rewrite !length_map, (Hrect systems Hin); exact Hlen).
  rewrite !fuse_feature_returns by exact Hl. cbn [bind ret].
  rewrite !np_dot_fin. reflexivity.
Qed.

(** X23.  [tensor_fusion] raises nothing when every trade has as many systems as
    there are weights, whatever the weights add up to: it returns one row
    for each trade.  When the first trade has a number of systems that is
    neither the number of weights nor one, and there is more than one
    weight, it raises the [ValueError] of a failed broadcast. *)
Theorem tensor_fusion_shapes (signals : list (list (Features R)))
  (weights : list R) :
  (Conditions.rectangular (length weights) signals ->
   exists fused,
     tensor_fusion signals weights = Ok fused /\ length fused = length signals) /\
  (forall systems rest,
      signals = systems :: rest ->
      length systems <> length weights ->
      length systems <> 1%nat -> length weights <> 1%nat ->
      tensor_fusion signals weights =
      Raise (ValueError "operands could not be broadcast together"%string)).
Proof.
  split.
  - intros Hrect. unfold Conditions.rectangular in Hrect.
    rewrite Forall_forall in Hrect.
    eexists. split.
    + unfold tensor_fusion. apply mapM_ok. intros systems Hin.
      rewrite !fuse_feature_returns
        by (rewrite normalize_weights_length; symmetry; apply Hrect; exact Hin).
      cbn [bind ret]. reflexivity.
    + apply length_map.
  - intros systems rest -> Hlen Hs1 Hw1. unfold tensor_fusion. cbn [mapM].
    unfold fuse_feature at 1. unfold Np.broadcast.
    rewrite normalize_weights_length, length_map.
    assert (Hneq : Nat.eqb (length weights) (length systems) = false)
      by (apply Nat.eqb_neq; congruence).
    rewrite Hneq.
    assert (Hnw : forall x, normalize_weights weights <> [x]).
    { intros x Hx. apply (f_equal (@length _)) in Hx.
      rewrite normalize_weights_length in Hx. simpl in Hx. congruence. }
    assert (Hcol : forall x, map confidence systems <> [x]).
    { intros x Hx. apply (f_equal (@length _)) in Hx.
      rewrite length_map in Hx. simpl in Hx. congruence. }
    destruct (normalize_weights weights) as [|a [|b nw]] eqn:En;
      destruct (map confidence systems) as [|c [|e cs]] eqn:Ec;
      try reflexivity;
      try (exfalso; apply (Hnw a); reflexivity);
      try (exfalso; apply (Hcol c); reflexivity).
Qed.

Lemma onehot_sum (a n i : nat) :
  (a <= i < a + n)%nat ->
  sum (map (fun j => if Nat.eqb j i then 1 else 0) (seq a n)) = 1.
Proof.
  revert a. induction n as [|n IH]; intros a Hi; [lia|].
  cbn [seq map]. rewrite sum_cons.
  destruct (Nat.eqb a i) eqn:E.
  - apply Nat.eqb_eq in E. subst a.
    rewrite sum_map_all_zero; [lra|].
    intros j Hj. apply in_seq in Hj.
    destruct (Nat.eqb j i) eqn:E'; [apply Nat.eqb_eq in E'; lia|reflexivity].
  - apply Nat.eqb_neq in E. rewrite IH by lia. lra.
Qed.

Lemma onehot_dot (xs : list R) (a i : nat) :
  (a <= i < a + length xs)%nat ->
  Conditions.dot (map (fun j => if Nat.eqb j i then 1 else 0) (seq a (length xs))) xs
  = nth (i - a) xs 0.
Proof.
  unfold Conditions.dot. revert a.
  induction xs as [|x xs IH]; intros a Hi; [simpl in Hi; lia|].
  cbn [length seq map combine]. rewrite sum_cons.
  destruct (Nat.eqb a i) eqn:E.
  - apply Nat.eqb_eq in E. subst a. rewrite Nat.sub_diag. cbn [nth].
    rewrite sum_map_all_zero; [lra|].
    intros [w y] Hin. apply in_combine_l in Hin.
    apply in_map_iff in Hin as [j [<- Hj]]. apply in_seq in Hj.
    destruct (Nat.eqb j i) eqn:E'; [apply Nat.eqb_eq in E'; lia|lra].
  - apply Nat.eqb_neq in E. cbn [length] in Hi.
    rewrite IH by lia.
    replace (i - a)%nat with (S (i - S a)) by lia. cbn [nth]. lra.
Qed.

Lemma nth_map_default {A : Type} (f : A -> R) (xs : list A) (i : nat) (d : A) :
  (i < length xs)%nat -> nth i (map f xs) 0 = f (nth i xs d).
Proof.
  intros Hi. rewrite (nth_indep _ 0 (f d)) by (rewrite length_map; exact Hi).
  apply map_nth.
Qed.

(** X24.  With the weights that [main] uses to test one system on its own, a
    [1.0] at its position and zeros elsewhere, [tensor_fusion] returns the
    rows of that system, trade by trade. *)
Theorem one_hot_weights_select_a_system
  (n i : nat) (signals : list (list (Features R))) :
  (i < n)%nat -> Conditions.rectangular n signals ->
  exists w,
    individual_weights n i = Ok w /\
    tensor_fusion signals w =
    Ok (map (fun systems => Conditions.to_np (nth i systems Conditions.zero_row))
            signals).
Proof.
  intros Hi Hrect. unfold individual_weights.
  rewrite (proj2 (Nat.ltb_lt _ _) Hi). eexists. split; [reflexivity|].
  set (w := map (fun j => if Nat.eqb j i then 1 else 0) (seq 0 n)).
  assert (Hs : sum w = 1) by (apply onehot_sum; lia).
  assert (Hlen : length w = n) by (unfold w; rewrite length_map, length_seq; reflexivity).
  rewrite (tensor_fusion_value n signals w Hrect Hlen) by lra.
  f_equal. apply map_ext_in. intros systems Hin.
  unfold Conditions.rectangular in Hrect. rewrite Forall_forall in Hrect.
  pose proof (Hrect systems Hin) as Hn.
  assert (Hw : map (fun x => x / sum w) w = w).
  { rewrite Hs. rewrite <- (map_id w) at 2. apply map_ext. intros x. field. }
  rewrite Hw. unfold Conditions.weighted_row, Conditions.to_np.
  cbn [confidence direction magnitude reliability].
  assert (Hdot : forall col : Features R -> R,
             Conditions.dot w (map col systems) =
             col (nth i systems Conditions.zero_row)).
  { intros col. unfold w. rewrite <- Hn.
    rewrite <- (length_map col systems).
    rewrite onehot_dot by (rewrite length_map; lia).
    rewrite Nat.sub_0_r. apply nth_map_default. lia. }
  rewrite !Hdot. reflexivity.
Qed.

Lemma one_hot_weights_select_a_system_example :
  exists w,
    individual_weights 2 1 = Ok w /\
    tensor_fusion Conditions.sample_signals w =
    Ok (map (fun systems => Conditions.to_np (nth 1 systems Conditions.zero_row))
            Conditions.sample_signals).
Proof.
  apply (one_hot_weights_select_a_system 2 1 Conditions.sample_signals).
  - lia.
  - unfold Conditions.rectangular, Conditions.sample_signals.
    apply Forall_cons; [reflexivity|].
    apply Forall_cons; [reflexivity|apply Forall_nil].
Defined.

Lemma quotients_scaled (c : R) (weights : list R) :
  c <> 0 -> sum weights <> 0 ->
  map (fun w => w / sum (map (Rmult c) weights)) (map (Rmult c) weights) =
  map (fun w => w / sum weights) weights.
Proof.
  intros Hc Hs. rewrite sum_map_Rmult, map_map.
  apply map_ext. intros w. field. split; assumption.
Qed.

(** X25.  Multiplying every weight by the same factor, positive or negative,
    does not change what [tensor_fusion] returns or raises, as long as the
    weights do not add up to zero. *)
Theorem tensor_fusion_is_scale_invariant
  (signals : list (list (Features R))) (weights : list R) (c : R) :
  c <> 0 -> sum weights <> 0 ->
  tensor_fusion signals (map (Rmult c) weights) = tensor_fusion signals weights.
Proof.
  intros Hc Hs. unfold tensor_fusion.
  rewrite (ValidationFacts.validation_normalize_fin weights Hs).
  rewrite ValidationFacts.validation_normalize_fin
    by (rewrite sum_map_Rmult; apply Rmult_integral_contrapositive; split; assumption).
  rewrite quotients_scaled by assumption. reflexivity.
Qed.

Lemma tensor_fusion_is_scale_invariant_example :
  tensor_fusion Conditions.sample_signals (map (Rmult (-5)) [6 / 10; 4 / 10]) =
  tensor_fusion Conditions.sample_signals [6 / 10; 4 / 10].
Proof.
  apply (tensor_fusion_is_scale_invariant
           Conditions.sample_signals [6 / 10; 4 / 10] (-5)).
  - lra.
  - rewrite !sum_cons, sum_nil. lra.
Defined.

Lemma item_middle {A : Type} (pre : list A) (x : A) (xs : list A) :
  Np.item (pre ++ x :: xs) (length pre) = Ok x.
Proof.
  unfold Np.item. rewrite nth_error_app2 by lia.
  rewrite Nat.sub_diag. reflexivity.
Qed.

Lemma pnl_loop_from (pre_p : list (Features Np.npfloat)) (pre_a : list Outcome)
  (ps : list (Features Np.npfloat)) (outs : list Outcome) :
  length pre_p = length pre_a -> length ps = length outs ->
  mapM (fun t => p <- Np.item (pre_p ++ ps) t ;;
                 a <- Np.item (pre_a ++ outs) t ;;
                 ret (trade_pnl p a))
       (seq (length pre_p) (length ps)) =
  Ok (map (fun '(p, a) => trade_pnl p a) (combine ps outs)).
Proof.
  revert pre_p pre_a outs. induction ps as [|p ps IH]; intros pre_p pre_a outs Hpre Hlen.
  - reflexivity.
  - destruct outs as [|a outs]; [discriminate|]. injection Hlen as Hlen.
    cbn [length seq mapM]. rewrite item_middle. cbn [bind].
    rewrite Hpre, item_middle. cbn [bind ret]. rewrite <- Hpre.
    specialize (IH (pre_p ++ [p]) (pre_a ++ [a]) outs).
    rewrite <- !app_assoc in IH. cbn [app] in IH.
    rewrite !length_app in IH. cbn [length] in IH.
    replace (length pre_p + 1)%nat with (S (length pre_p)) in IH by lia.
    rewrite IH by (lia || exact Hlen). reflexivity.
Qed.

(** With as many outcomes as predictions the loop over the trades pairs
    them up. *)
Lemma simulated_pnl_value (predictions : list (Features Np.npfloat))
  (actual_outcomes : list Outcome) :
  length predictions = length actual_outcomes ->
  simulated_pnl predictions actual_outcomes =
  Ok (map (fun '(p, a) => trade_pnl p a) (combine predictions actual_outcomes)).
Proof.
  intros Hlen. exact (pnl_loop_from [] [] predictions actual_outcomes eq_refl Hlen).
Qed.

Lemma sum_between (lo hi : R) (xs : list R) :
  Forall (fun x => lo <= x <= hi) xs ->
  lo * INR (length xs) <= sum xs <= hi * INR (length xs).
Proof.
  induction 1 as [|x xs Hx _ IH].
  - simpl. rewrite sum_nil. lra.
  - cbn [length]. rewrite S_INR, sum_cons. lra.
Qed.

Lemma mean_between (lo hi : R) (xs : list R) :
  xs <> [] -> Forall (fun x => lo <= x <= hi) xs -> lo <= Spec.mean xs <= hi.
Proof.
  intros Hne Hall. pose proof (sum_between lo hi xs Hall) as Hs.
  pose proof (len_pos xs Hne) as Hl. unfold len in Hl. unfold Spec.mean.
  split.
  - apply (Rmult_le_reg_r (INR (length xs))); [exact Hl|].
    unfold Rdiv. rewrite Rmult_assoc, Rinv_l by lra. lra.
  - apply (Rmult_le_reg_r (INR (length xs))); [exact Hl|].
    unfold Rdiv. rewrite Rmult_assoc, Rinv_l by lra. lra.
Qed.

Lemma metrics_of_nothing :
  compute_performance_metrics [] [] =
  Ok {| direction_accuracy := Np.NaN;
        magnitude_rmse := Np.NaN;
        mean_pnl := Np.NaN;
        std_pnl := Np.NaN;
        sharpe_ratio := Np.Fin 0;
        total_pnl := Np.NaN |}.
Proof.
  unfold compute_performance_metrics. cbn [map length Np.broadcast Nat.eqb combine bind].
  unfold simulated_pnl. cbn [length seq mapM bind ret map].
  rewrite ValidationFacts.sharpe_nil, ValidationFacts.np_std_nil,
    ValidationFacts.np_mean_nil.
  reflexivity.
Qed.

(** X26.  On as many outcomes as predictions, at least one,
    [compute_performance_metrics] returns: the direction accuracy is a
    proportion, the mean P&L is the mean of the per-trade P&L and the total
    P&L is their sum.  On no predictions and no outcomes it returns as
    well, with NaN for every statistic but the Sharpe ratio, which is 0. *)
Theorem metrics_on_matching_lengths
  (predictions : list (Features Np.npfloat)) (actual_outcomes : list Outcome) :
  (predictions <> [] -> length predictions = length actual_outcomes ->
   exists mt acc,
     compute_performance_metrics predictions actual_outcomes = Ok mt /\
     direction_accuracy mt = Np.Fin acc /\ 0 <= acc <= 1 /\
     mean_pnl mt =
       Np.Fin (Spec.mean (map (fun '(p, a) => trade_pnl p a)
                              (combine predictions actual_outcomes))) /\
     total_pnl mt =
       Np.Fin (sum (map (fun '(p, a) => trade_pnl p a)
                        (combine predictions actual_outcomes)))) /\
  compute_performance_metrics [] [] =
  Ok {| direction_accuracy := Np.NaN;
        magnitude_rmse := Np.NaN;
        mean_pnl := Np.NaN;
        std_pnl := Np.NaN;
        sharpe_ratio := Np.Fin 0;
        total_pnl := Np.NaN |}.
Proof.
  split; [|exact metrics_of_nothing].
  intros Hne Hlen. unfold compute_performance_metrics.
  rewrite !broadcast_equal by (rewrite !length_map; exact Hlen). cbn [bind].
  rewrite (simulated_pnl_value _ _ Hlen). cbn [bind ret].
  set (pnl := map (fun '(p, a) => trade_pnl p a) (combine predictions actual_outcomes)).
  set (hits := combine (map (fun p => Np.sign (direction p)) predictions)
                       (map actual_direction actual_outcomes)).
  assert (Hpnl : pnl <> []).
  { unfold pnl. destruct predictions as [|p ps]; [congruence|].
    destruct actual_outcomes; discriminate. }
  assert (Hhits : hits <> []).
  { unfold hits. destruct predictions as [|p ps]; [congruence|].
    destruct actual_outcomes; discriminate. }
  assert (H01 : map (fun '(p, a) => if Np.eqb p (Np.Fin a) then Np.Fin 1 else Np.Fin 0)
                    hits =
                map Np.Fin (map (fun '(p, a) => if Np.eqb p (Np.Fin a) then 1 else 0)
                                hits)).
  { rewrite map_map. apply map_ext. intros [p a]. destruct (Np.eqb _ _); reflexivity. }
  eexists. eexists. split; [reflexivity|].
  cbn [direction_accuracy mean_pnl total_pnl].
  rewrite H01, ValidationFacts.np_mean_fin
    by (destruct hits; [congruence|discriminate]).
  split; [reflexivity|]. split.
  - apply mean_between; [destruct hits; [congruence|discriminate]|].
    apply Forall_forall. intros y Hy. apply in_map_iff in Hy as [[p a] [<- _]].
    destruct (Np.eqb _ _); lra.
  - rewrite (ValidationFacts.np_mean_fin pnl Hpnl). split; [reflexivity|].
    cbn [Np.mul]. f_equal. unfold Spec.mean.
    assert (Hn : length predictions = length pnl).
    { unfold pnl. rewrite length_map, length_combine, <- Hlen. symmetry. apply Nat.min_id. }
    rewrite Hn. pose proof (len_pos pnl Hpnl) as Hl. unfold len in Hl.
    field. lra.
Qed.

Lemma normalize_zero_weights (n : nat) :
  normalize_weights (repeat 0 n) = repeat Np.NaN n.
Proof.
  unfold normalize_weights. rewrite ValidationFacts.np_sum_fin, sum_repeat.
  rewrite Rmult_0_r. induction n as [|n IH]; [reflexivity|].
  cbn [repeat map]. rewrite IH. f_equal.
  cbn [Np.div]. destruct (Req_dec_T 0 0) as [_|H]; [|congruence].
  unfold Np.signed_inf. destruct (Rgt_dec 0 0); [lra|].
  destruct (Rlt_dec 0 0); [lra|reflexivity].
Qed.

Lemma np_fold_nan (xs : list Np.npfloat) :
  fold_left Np.add xs Np.NaN = Np.NaN.
Proof.
  induction xs as [|x xs IH]; [reflexivity|]. cbn [fold_left Np.add]. exact IH.
Qed.

Lemma nan_weights_fuse_to_nan (n : nat) (xs : list R) :
  n <> 0%nat -> length xs = n ->
  Np.sum (map (fun '(w, x) => Np.mul w (Np.Fin x)) (combine (repeat Np.NaN n) xs))
  = Np.NaN.
Proof.
  intros Hn Hlen. destruct n as [|n]; [congruence|].
  destruct xs as [|x xs]; [discriminate|].
  unfold Np.sum. cbn [repeat combine map fold_left Np.mul Np.add].
  apply np_fold_nan.
Qed.

Lemma zero_weights_fuse_to_nan (n : nat) (signals : list (list (Features R))) :
  n <> 0%nat -> Conditions.rectangular n signals ->
  tensor_fusion signals (repeat 0 n) =
  Ok (map (fun _ => Conditions.nan_row) signals).
Proof.
  intros Hn Hrect. unfold tensor_fusion. rewrite normalize_zero_weights.
  apply mapM_ok. intros systems Hin.
  unfold Conditions.rectangular in Hrect. rewrite Forall_forall in Hrect.
  pose proof (Hrect systems Hin) as Hl.
  rewrite !fuse_feature_returns by (rewrite repeat_length; symmetry; exact Hl).
  cbn [bind ret].
  rewrite !nan_weights_fuse_to_nan by (try exact Hn; rewrite length_map; exact Hl).
  reflexivity.
Qed.

Lemma nan_rows_are_losses {A : Type} (signals : list A) (outs : list Outcome) :
  length signals = length outs ->
  map (fun '(p, a) => trade_pnl p a)
      (combine (map (fun _ => Conditions.nan_row) signals) outs) =
  map Conditions.booked_loss outs.
Proof.
  revert outs. induction signals as [|s signals IH]; intros outs Hlen.
  - destruct outs; [reflexivity|discriminate].
  - destruct outs as [|a outs]; [discriminate|]. injection Hlen as Hlen.
    cbn [map combine]. rewrite IH by exact Hlen. f_equal.
Qed.

Lemma nan_rows_never_hit {A : Type} (signals : list A) (outs : list Outcome) :
  length signals = length outs ->
  map (fun '(p, a) => if Np.eqb p (Np.Fin a) then Np.Fin 1 else Np.Fin 0)
      (combine (map (fun p => Np.sign (direction p))
                    (map (fun _ => Conditions.nan_row) signals))
               (map actual_direction outs)) =
  map Np.Fin (repeat 0 (length outs)).
Proof.
  revert outs. induction signals as [|s signals IH]; intros outs Hlen.
  - destruct outs; [reflexivity|discriminate].
  - destruct outs as [|a outs]; [discriminate|]. injection Hlen as Hlen.
    cbn [map combine length repeat]. rewrite IH by exact Hlen. reflexivity.
Qed.

(** X27.  Weights that are all zero do not make the pipeline of [main] fail:
    [tensor_fusion] returns rows of NaN, and [compute_performance_metrics]
    then reports a direction accuracy of zero and books every trade as a
    loss of [60 * magnitude + 0.25]. *)
Theorem zero_weights_report_every_trade_as_a_loss
  (n : nat) (signals : list (list (Features R))) (actual_outcomes : list Outcome) :
  n <> 0%nat -> signals <> [] ->
  Conditions.rectangular n signals ->
  length signals = length actual_outcomes ->
  exists mt,
    tensor_fusion signals (repeat 0 n) =
      Ok (map (fun _ => Conditions.nan_row) signals) /\
    evaluate signals (repeat 0 n) actual_outcomes = Ok mt /\
    direction_accuracy mt = Np.Fin 0 /\
    magnitude_rmse mt = Np.NaN /\
    mean_pnl mt = Np.Fin (Spec.mean (map Conditions.booked_loss actual_outcomes)) /\
    total_pnl mt = Np.Fin (sum (map Conditions.booked_loss actual_outcomes)).
Proof.
  intros Hn Hne Hrect Hlen.
  assert (Houts : actual_outcomes <> []).
  { destruct actual_outcomes; [|discriminate]. destruct signals; [congruence|discriminate]. }
  pose proof (len_pos actual_outcomes Houts) as Hl. unfold len in Hl.
  unfold evaluate. rewrite (zero_weights_fuse_to_nan n signals Hn Hrect). cbn [bind].
  assert (Hlen' : length (map (fun _ : list (Features R) => Conditions.nan_row) signals)
                  = length actual_outcomes) by (rewrite length_map; exact Hlen).
  unfold compute_performance_metrics.
  rewrite !broadcast_equal by (rewrite !length_map; exact Hlen). cbn [bind].
  rewrite (simulated_pnl_value _ _ Hlen'). cbn [bind ret].
  rewrite (nan_rows_are_losses signals actual_outcomes Hlen).
  rewrite (nan_rows_never_hit signals actual_outcomes Hlen).
  eexists. split; [reflexivity|]. split; [reflexivity|].
  cbn [direction_accuracy magnitude_rmse mean_pnl total_pnl].
  assert (Hb : map Conditions.booked_loss actual_outcomes <> [])
    by (destruct actual_outcomes; [congruence|discriminate]).
  split; [|split; [|split]].
  - rewrite ValidationFacts.np_mean_fin
      by (destruct actual_outcomes; [congruence|discriminate]).
    f_equal. unfold Spec.mean. rewrite sum_repeat. unfold Rdiv. lra.
  - destruct signals as [|s signals]; [congruence|].
    destruct actual_outcomes as [|a outs]; [discriminate|].
    cbn [map combine magnitude Conditions.nan_row Np.sub Np.neg Np.add Np.square Np.mul].
    unfold Np.mean, Np.sum. cbn [fold_left Np.add]. rewrite np_fold_nan.
    reflexivity.
  - apply ValidationFacts.np_mean_fin. exact Hb.
  - rewrite (ValidationFacts.np_mean_fin _ Hb). cbn [Np.mul]. f_equal.
    unfold Spec.mean. rewrite !length_map, Hlen. field. lra.
Qed.

Lemma zero_weights_report_every_trade_as_a_loss_example :
  exists mt,
    tensor_fusion Conditions.sample_signals (repeat 0 2) =
      Ok (map (fun _ => Conditions.nan_row) Conditions.sample_signals) /\
    evaluate Conditions.sample_signals (repeat 0 2) Conditions.sample_outcomes
      = Ok mt /\
    direction_accuracy mt = Np.Fin 0 /\
    magnitude_rmse mt = Np.NaN /\
    mean_pnl mt =
      Np.Fin (Spec.mean (map Conditions.booked_loss Conditions.sample_outcomes)) /\
    total_pnl mt =
      Np.Fin (sum (map Conditions.booked_loss Conditions.sample_outcomes)).
Proof.
  apply (zero_weights_report_every_trade_as_a_loss
           2 Conditions.sample_signals Conditions.sample_outcomes).
  - discriminate.
  - discriminate.
  - unfold Conditions.rectangular, Conditions.sample_signals.
    apply Forall_cons; [reflexivity|].
    apply Forall_cons; [reflexivity|apply Forall_nil].
  - reflexivity.
Defined.

End ValidationExtras.
